(** * The n-gram query parser and the token/trigram data model

    A shallow embedding of [webapp/nlp_parser/_parser.py] and
    [webapp/nlp_parser/_data_structures.py], and the properties of the
    classifier, the query parsers and the [Token]/[Trigram] value types.

    Python strings are sequences of Unicode code points; the built-in string
    methods the parser calls ([isalpha], [lower], [strip], [split], [in]) and
    the three regular expressions are modelled first, then the two modules,
    then the properties. *)

From Stdlib Require Import ZArith NArith Lia Ascii String DecimalZ.
From stdpp Require Import base option list gmap strings.
From Equations Require Import Equations.

Local Open Scope N_scope.

(** ** Python strings *)

Definition codepoint := N.
Definition pystr := list codepoint.

(** Source-level literals are written as UTF-8 text and decoded to code
    points. *)
Fixpoint utf8_decode (bs : list N) : pystr :=
  match bs with
  | [] => []
  | b0 :: r0 =>
    if b0 <? 0x80 then b0 :: utf8_decode r0
    else match r0 with
    | [] => []
    | b1 :: r1 =>
      if b0 <? 0xE0 then ((b0 - 0xC0) * 0x40 + (b1 - 0x80)) :: utf8_decode r1
      else match r1 with
      | [] => []
      | b2 :: r2 =>
        if b0 <? 0xF0
        then ((b0 - 0xE0) * 0x1000 + (b1 - 0x80) * 0x40 + (b2 - 0x80))
               :: utf8_decode r2
        else match r2 with
        | [] => []
        | b3 :: r3 =>
          ((b0 - 0xF0) * 0x40000 + (b1 - 0x80) * 0x1000
           + (b2 - 0x80) * 0x40 + (b3 - 0x80)) :: utf8_decode r3
        end
      end
    end
  end.

Definition u (s : string) : pystr :=
  utf8_decode (map N_of_ascii (list_ascii_of_string s)).

Definition in_ranges (tbl : list (N * N)) (c : codepoint) : bool :=
  existsb (fun r => (fst r <=? c) && (c <=? snd r)) tbl.

(** Code points with the Alphabetic flag of CPython's character database (general categories Lu, Ll, Lt, Lm, Lo; Unicode 14.0.0), as inclusive ranges. *)
Definition alpha_table : list (N * N) :=
  [(0x41, 0x5A); (0x61, 0x7A); (0xAA, 0xAA); (0xB5, 0xB5); (0xBA, 0xBA); (0xC0, 0xD6);
   (0xD8, 0xF6); (0xF8, 0x2C1); (0x2C6, 0x2D1); (0x2E0, 0x2E4); (0x2EC, 0x2EC); (0x2EE, 0x2EE);
   (0x370, 0x374); (0x376, 0x377); (0x37A, 0x37D); (0x37F, 0x37F); (0x386, 0x386); (0x388, 0x38A);
   (0x38C, 0x38C); (0x38E, 0x3A1); (0x3A3, 0x3F5); (0x3F7, 0x481); (0x48A, 0x52F); (0x531, 0x556);
   (0x559, 0x559); (0x560, 0x588); (0x5D0, 0x5EA); (0x5EF, 0x5F2); (0x620, 0x64A); (0x66E, 0x66F);
   (0x671, 0x6D3); (0x6D5, 0x6D5); (0x6E5, 0x6E6); (0x6EE, 0x6EF); (0x6FA, 0x6FC); (0x6FF, 0x6FF);
   (0x710, 0x710); (0x712, 0x72F); (0x74D, 0x7A5); (0x7B1, 0x7B1); (0x7CA, 0x7EA); (0x7F4, 0x7F5);
   (0x7FA, 0x7FA); (0x800, 0x815); (0x81A, 0x81A); (0x824, 0x824); (0x828, 0x828); (0x840, 0x858);
   (0x860, 0x86A); (0x870, 0x887); (0x889, 0x88E); (0x8A0, 0x8C9); (0x904, 0x939); (0x93D, 0x93D);
   (0x950, 0x950); (0x958, 0x961); (0x971, 0x980); (0x985, 0x98C); (0x98F, 0x990); (0x993, 0x9A8);
   (0x9AA, 0x9B0); (0x9B2, 0x9B2); (0x9B6, 0x9B9); (0x9BD, 0x9BD); (0x9CE, 0x9CE); (0x9DC, 0x9DD);
   (0x9DF, 0x9E1); (0x9F0, 0x9F1); (0x9FC, 0x9FC); (0xA05, 0xA0A); (0xA0F, 0xA10); (0xA13, 0xA28);
   (0xA2A, 0xA30); (0xA32, 0xA33); (0xA35, 0xA36); (0xA38, 0xA39); (0xA59, 0xA5C); (0xA5E, 0xA5E);
   (0xA72, 0xA74); (0xA85, 0xA8D); (0xA8F, 0xA91); (0xA93, 0xAA8); (0xAAA, 0xAB0); (0xAB2, 0xAB3);
   (0xAB5, 0xAB9); (0xABD, 0xABD); (0xAD0, 0xAD0); (0xAE0, 0xAE1); (0xAF9, 0xAF9); (0xB05, 0xB0C);
   (0xB0F, 0xB10); (0xB13, 0xB28); (0xB2A, 0xB30); (0xB32, 0xB33); (0xB35, 0xB39); (0xB3D, 0xB3D);
   (0xB5C, 0xB5D); (0xB5F, 0xB61); (0xB71, 0xB71); (0xB83, 0xB83); (0xB85, 0xB8A); (0xB8E, 0xB90);
   (0xB92, 0xB95); (0xB99, 0xB9A); (0xB9C, 0xB9C); (0xB9E, 0xB9F); (0xBA3, 0xBA4); (0xBA8, 0xBAA);
   (0xBAE, 0xBB9); (0xBD0, 0xBD0); (0xC05, 0xC0C); (0xC0E, 0xC10); (0xC12, 0xC28); (0xC2A, 0xC39);
   (0xC3D, 0xC3D); (0xC58, 0xC5A); (0xC5D, 0xC5D); (0xC60, 0xC61); (0xC80, 0xC80); (0xC85, 0xC8C);
   (0xC8E, 0xC90); (0xC92, 0xCA8); (0xCAA, 0xCB3); (0xCB5, 0xCB9); (0xCBD, 0xCBD); (0xCDD, 0xCDE);
   (0xCE0, 0xCE1); (0xCF1, 0xCF2); (0xD04, 0xD0C); (0xD0E, 0xD10); (0xD12, 0xD3A); (0xD3D, 0xD3D);
   (0xD4E, 0xD4E); (0xD54, 0xD56); (0xD5F, 0xD61); (0xD7A, 0xD7F); (0xD85, 0xD96); (0xD9A, 0xDB1);
   (0xDB3, 0xDBB); (0xDBD, 0xDBD); (0xDC0, 0xDC6); (0xE01, 0xE30); (0xE32, 0xE33); (0xE40, 0xE46);
   (0xE81, 0xE82); (0xE84, 0xE84); (0xE86, 0xE8A); (0xE8C, 0xEA3); (0xEA5, 0xEA5); (0xEA7, 0xEB0);
   (0xEB2, 0xEB3); (0xEBD, 0xEBD); (0xEC0, 0xEC4); (0xEC6, 0xEC6); (0xEDC, 0xEDF); (0xF00, 0xF00);
   (0xF40, 0xF47); (0xF49, 0xF6C); (0xF88, 0xF8C); (0x1000, 0x102A); (0x103F, 0x103F); (0x1050, 0x1055);
   (0x105A, 0x105D); (0x1061, 0x1061); (0x1065, 0x1066); (0x106E, 0x1070); (0x1075, 0x1081); (0x108E, 0x108E);
   (0x10A0, 0x10C5); (0x10C7, 0x10C7); (0x10CD, 0x10CD); (0x10D0, 0x10FA); (0x10FC, 0x1248); (0x124A, 0x124D);
   (0x1250, 0x1256); (0x1258, 0x1258); (0x125A, 0x125D); (0x1260, 0x1288); (0x128A, 0x128D); (0x1290, 0x12B0);
   (0x12B2, 0x12B5); (0x12B8, 0x12BE); (0x12C0, 0x12C0); (0x12C2, 0x12C5); (0x12C8, 0x12D6); (0x12D8, 0x1310);
   (0x1312, 0x1315); (0x1318, 0x135A); (0x1380, 0x138F); (0x13A0, 0x13F5); (0x13F8, 0x13FD); (0x1401, 0x166C);
   (0x166F, 0x167F); (0x1681, 0x169A); (0x16A0, 0x16EA); (0x16F1, 0x16F8); (0x1700, 0x1711); (0x171F, 0x1731);
   (0x1740, 0x1751); (0x1760, 0x176C); (0x176E, 0x1770); (0x1780, 0x17B3); (0x17D7, 0x17D7); (0x17DC, 0x17DC);
   (0x1820, 0x1878); (0x1880, 0x1884); (0x1887, 0x18A8); (0x18AA, 0x18AA); (0x18B0, 0x18F5); (0x1900, 0x191E);
   (0x1950, 0x196D); (0x1970, 0x1974); (0x1980, 0x19AB); (0x19B0, 0x19C9); (0x1A00, 0x1A16); (0x1A20, 0x1A54);
   (0x1AA7, 0x1AA7); (0x1B05, 0x1B33); (0x1B45, 0x1B4C); (0x1B83, 0x1BA0); (0x1BAE, 0x1BAF); (0x1BBA, 0x1BE5);
   (0x1C00, 0x1C23); (0x1C4D, 0x1C4F); (0x1C5A, 0x1C7D); (0x1C80, 0x1C88); (0x1C90, 0x1CBA); (0x1CBD, 0x1CBF);
   (0x1CE9, 0x1CEC); (0x1CEE, 0x1CF3); (0x1CF5, 0x1CF6); (0x1CFA, 0x1CFA); (0x1D00, 0x1DBF); (0x1E00, 0x1F15);
   (0x1F18, 0x1F1D); (0x1F20, 0x1F45); (0x1F48, 0x1F4D); (0x1F50, 0x1F57); (0x1F59, 0x1F59); (0x1F5B, 0x1F5B);
   (0x1F5D, 0x1F5D); (0x1F5F, 0x1F7D); (0x1F80, 0x1FB4); (0x1FB6, 0x1FBC); (0x1FBE, 0x1FBE); (0x1FC2, 0x1FC4);
   (0x1FC6, 0x1FCC); (0x1FD0, 0x1FD3); (0x1FD6, 0x1FDB); (0x1FE0, 0x1FEC); (0x1FF2, 0x1FF4); (0x1FF6, 0x1FFC);
   (0x2071, 0x2071); (0x207F, 0x207F); (0x2090, 0x209C); (0x2102, 0x2102); (0x2107, 0x2107); (0x210A, 0x2113);
   (0x2115, 0x2115); (0x2119, 0x211D); (0x2124, 0x2124); (0x2126, 0x2126); (0x2128, 0x2128); (0x212A, 0x212D);
   (0x212F, 0x2139); (0x213C, 0x213F); (0x2145, 0x2149); (0x214E, 0x214E); (0x2183, 0x2184); (0x2C00, 0x2CE4);
   (0x2CEB, 0x2CEE); (0x2CF2, 0x2CF3); (0x2D00, 0x2D25); (0x2D27, 0x2D27); (0x2D2D, 0x2D2D); (0x2D30, 0x2D67);
   (0x2D6F, 0x2D6F); (0x2D80, 0x2D96); (0x2DA0, 0x2DA6); (0x2DA8, 0x2DAE); (0x2DB0, 0x2DB6); (0x2DB8, 0x2DBE);
   (0x2DC0, 0x2DC6); (0x2DC8, 0x2DCE); (0x2DD0, 0x2DD6); (0x2DD8, 0x2DDE); (0x2E2F, 0x2E2F); (0x3005, 0x3006);
   (0x3031, 0x3035); (0x303B, 0x303C); (0x3041, 0x3096); (0x309D, 0x309F); (0x30A1, 0x30FA); (0x30FC, 0x30FF);
   (0x3105, 0x312F); (0x3131, 0x318E); (0x31A0, 0x31BF); (0x31F0, 0x31FF); (0x3400, 0x4DBF); (0x4E00, 0xA48C);
   (0xA4D0, 0xA4FD); (0xA500, 0xA60C); (0xA610, 0xA61F); (0xA62A, 0xA62B); (0xA640, 0xA66E); (0xA67F, 0xA69D);
   (0xA6A0, 0xA6E5); (0xA717, 0xA71F); (0xA722, 0xA788); (0xA78B, 0xA7CA); (0xA7D0, 0xA7D1); (0xA7D3, 0xA7D3);
   (0xA7D5, 0xA7D9); (0xA7F2, 0xA801); (0xA803, 0xA805); (0xA807, 0xA80A); (0xA80C, 0xA822); (0xA840, 0xA873);
   (0xA882, 0xA8B3); (0xA8F2, 0xA8F7); (0xA8FB, 0xA8FB); (0xA8FD, 0xA8FE); (0xA90A, 0xA925); (0xA930, 0xA946);
   (0xA960, 0xA97C); (0xA984, 0xA9B2); (0xA9CF, 0xA9CF); (0xA9E0, 0xA9E4); (0xA9E6, 0xA9EF); (0xA9FA, 0xA9FE);
   (0xAA00, 0xAA28); (0xAA40, 0xAA42); (0xAA44, 0xAA4B); (0xAA60, 0xAA76); (0xAA7A, 0xAA7A); (0xAA7E, 0xAAAF);
   (0xAAB1, 0xAAB1); (0xAAB5, 0xAAB6); (0xAAB9, 0xAABD); (0xAAC0, 0xAAC0); (0xAAC2, 0xAAC2); (0xAADB, 0xAADD);
   (0xAAE0, 0xAAEA); (0xAAF2, 0xAAF4); (0xAB01, 0xAB06); (0xAB09, 0xAB0E); (0xAB11, 0xAB16); (0xAB20, 0xAB26);
   (0xAB28, 0xAB2E); (0xAB30, 0xAB5A); (0xAB5C, 0xAB69); (0xAB70, 0xABE2); (0xAC00, 0xD7A3); (0xD7B0, 0xD7C6);
   (0xD7CB, 0xD7FB); (0xF900, 0xFA6D); (0xFA70, 0xFAD9); (0xFB00, 0xFB06); (0xFB13, 0xFB17); (0xFB1D, 0xFB1D);
   (0xFB1F, 0xFB28); (0xFB2A, 0xFB36); (0xFB38, 0xFB3C); (0xFB3E, 0xFB3E); (0xFB40, 0xFB41); (0xFB43, 0xFB44);
   (0xFB46, 0xFBB1); (0xFBD3, 0xFD3D); (0xFD50, 0xFD8F); (0xFD92, 0xFDC7); (0xFDF0, 0xFDFB); (0xFE70, 0xFE74);
   (0xFE76, 0xFEFC); (0xFF21, 0xFF3A); (0xFF41, 0xFF5A); (0xFF66, 0xFFBE); (0xFFC2, 0xFFC7); (0xFFCA, 0xFFCF);
   (0xFFD2, 0xFFD7); (0xFFDA, 0xFFDC); (0x10000, 0x1000B); (0x1000D, 0x10026); (0x10028, 0x1003A); (0x1003C, 0x1003D);
   (0x1003F, 0x1004D); (0x10050, 0x1005D); (0x10080, 0x100FA); (0x10280, 0x1029C); (0x102A0, 0x102D0); (0x10300, 0x1031F);
   (0x1032D, 0x10340); (0x10342, 0x10349); (0x10350, 0x10375); (0x10380, 0x1039D); (0x103A0, 0x103C3); (0x103C8, 0x103CF);
   (0x10400, 0x1049D); (0x104B0, 0x104D3); (0x104D8, 0x104FB); (0x10500, 0x10527); (0x10530, 0x10563); (0x10570, 0x1057A);
   (0x1057C, 0x1058A); (0x1058C, 0x10592); (0x10594, 0x10595); (0x10597, 0x105A1); (0x105A3, 0x105B1); (0x105B3, 0x105B9);
   (0x105BB, 0x105BC); (0x10600, 0x10736); (0x10740, 0x10755); (0x10760, 0x10767); (0x10780, 0x10785); (0x10787, 0x107B0);
   (0x107B2, 0x107BA); (0x10800, 0x10805); (0x10808, 0x10808); (0x1080A, 0x10835); (0x10837, 0x10838); (0x1083C, 0x1083C);
   (0x1083F, 0x10855); (0x10860, 0x10876); (0x10880, 0x1089E); (0x108E0, 0x108F2); (0x108F4, 0x108F5); (0x10900, 0x10915);
   (0x10920, 0x10939); (0x10980, 0x109B7); (0x109BE, 0x109BF); (0x10A00, 0x10A00); (0x10A10, 0x10A13); (0x10A15, 0x10A17);
   (0x10A19, 0x10A35); (0x10A60, 0x10A7C); (0x10A80, 0x10A9C); (0x10AC0, 0x10AC7); (0x10AC9, 0x10AE4); (0x10B00, 0x10B35);
   (0x10B40, 0x10B55); (0x10B60, 0x10B72); (0x10B80, 0x10B91); (0x10C00, 0x10C48); (0x10C80, 0x10CB2); (0x10CC0, 0x10CF2);
   (0x10D00, 0x10D23); (0x10E80, 0x10EA9); (0x10EB0, 0x10EB1); (0x10F00, 0x10F1C); (0x10F27, 0x10F27); (0x10F30, 0x10F45);
   (0x10F70, 0x10F81); (0x10FB0, 0x10FC4); (0x10FE0, 0x10FF6); (0x11003, 0x11037); (0x11071, 0x11072); (0x11075, 0x11075);
   (0x11083, 0x110AF); (0x110D0, 0x110E8); (0x11103, 0x11126); (0x11144, 0x11144); (0x11147, 0x11147); (0x11150, 0x11172);
   (0x11176, 0x11176); (0x11183, 0x111B2); (0x111C1, 0x111C4); (0x111DA, 0x111DA); (0x111DC, 0x111DC); (0x11200, 0x11211);
   (0x11213, 0x1122B); (0x11280, 0x11286); (0x11288, 0x11288); (0x1128A, 0x1128D); (0x1128F, 0x1129D); (0x1129F, 0x112A8);
   (0x112B0, 0x112DE); (0x11305, 0x1130C); (0x1130F, 0x11310); (0x11313, 0x11328); (0x1132A, 0x11330); (0x11332, 0x11333);
   (0x11335, 0x11339); (0x1133D, 0x1133D); (0x11350, 0x11350); (0x1135D, 0x11361); (0x11400, 0x11434); (0x11447, 0x1144A);
   (0x1145F, 0x11461); (0x11480, 0x114AF); (0x114C4, 0x114C5); (0x114C7, 0x114C7); (0x11580, 0x115AE); (0x115D8, 0x115DB);
   (0x11600, 0x1162F); (0x11644, 0x11644); (0x11680, 0x116AA); (0x116B8, 0x116B8); (0x11700, 0x1171A); (0x11740, 0x11746);
   (0x11800, 0x1182B); (0x118A0, 0x118DF); (0x118FF, 0x11906); (0x11909, 0x11909); (0x1190C, 0x11913); (0x11915, 0x11916);
   (0x11918, 0x1192F); (0x1193F, 0x1193F); (0x11941, 0x11941); (0x119A0, 0x119A7); (0x119AA, 0x119D0); (0x119E1, 0x119E1);
   (0x119E3, 0x119E3); (0x11A00, 0x11A00); (0x11A0B, 0x11A32); (0x11A3A, 0x11A3A); (0x11A50, 0x11A50); (0x11A5C, 0x11A89);
   (0x11A9D, 0x11A9D); (0x11AB0, 0x11AF8); (0x11C00, 0x11C08); (0x11C0A, 0x11C2E); (0x11C40, 0x11C40); (0x11C72, 0x11C8F);
   (0x11D00, 0x11D06); (0x11D08, 0x11D09); (0x11D0B, 0x11D30); (0x11D46, 0x11D46); (0x11D60, 0x11D65); (0x11D67, 0x11D68);
   (0x11D6A, 0x11D89); (0x11D98, 0x11D98); (0x11EE0, 0x11EF2); (0x11FB0, 0x11FB0); (0x12000, 0x12399); (0x12480, 0x12543);
   (0x12F90, 0x12FF0); (0x13000, 0x1342E); (0x14400, 0x14646); (0x16800, 0x16A38); (0x16A40, 0x16A5E); (0x16A70, 0x16ABE);
   (0x16AD0, 0x16AED); (0x16B00, 0x16B2F); (0x16B40, 0x16B43); (0x16B63, 0x16B77); (0x16B7D, 0x16B8F); (0x16E40, 0x16E7F);
   (0x16F00, 0x16F4A); (0x16F50, 0x16F50); (0x16F93, 0x16F9F); (0x16FE0, 0x16FE1); (0x16FE3, 0x16FE3); (0x17000, 0x187F7);
   (0x18800, 0x18CD5); (0x18D00, 0x18D08); (0x1AFF0, 0x1AFF3); (0x1AFF5, 0x1AFFB); (0x1AFFD, 0x1AFFE); (0x1B000, 0x1B122);
   (0x1B150, 0x1B152); (0x1B164, 0x1B167); (0x1B170, 0x1B2FB); (0x1BC00, 0x1BC6A); (0x1BC70, 0x1BC7C); (0x1BC80, 0x1BC88);
   (0x1BC90, 0x1BC99); (0x1D400, 0x1D454); (0x1D456, 0x1D49C); (0x1D49E, 0x1D49F); (0x1D4A2, 0x1D4A2); (0x1D4A5, 0x1D4A6);
   (0x1D4A9, 0x1D4AC); (0x1D4AE, 0x1D4B9); (0x1D4BB, 0x1D4BB); (0x1D4BD, 0x1D4C3); (0x1D4C5, 0x1D505); (0x1D507, 0x1D50A);
   (0x1D50D, 0x1D514); (0x1D516, 0x1D51C); (0x1D51E, 0x1D539); (0x1D53B, 0x1D53E); (0x1D540, 0x1D544); (0x1D546, 0x1D546);
   (0x1D54A, 0x1D550); (0x1D552, 0x1D6A5); (0x1D6A8, 0x1D6C0); (0x1D6C2, 0x1D6DA); (0x1D6DC, 0x1D6FA); (0x1D6FC, 0x1D714);
   (0x1D716, 0x1D734); (0x1D736, 0x1D74E); (0x1D750, 0x1D76E); (0x1D770, 0x1D788); (0x1D78A, 0x1D7A8); (0x1D7AA, 0x1D7C2);
   (0x1D7C4, 0x1D7CB); (0x1DF00, 0x1DF1E); (0x1E100, 0x1E12C); (0x1E137, 0x1E13D); (0x1E14E, 0x1E14E); (0x1E290, 0x1E2AD);
   (0x1E2C0, 0x1E2EB); (0x1E7E0, 0x1E7E6); (0x1E7E8, 0x1E7EB); (0x1E7ED, 0x1E7EE); (0x1E7F0, 0x1E7FE); (0x1E800, 0x1E8C4);
   (0x1E900, 0x1E943); (0x1E94B, 0x1E94B); (0x1EE00, 0x1EE03); (0x1EE05, 0x1EE1F); (0x1EE21, 0x1EE22); (0x1EE24, 0x1EE24);
   (0x1EE27, 0x1EE27); (0x1EE29, 0x1EE32); (0x1EE34, 0x1EE37); (0x1EE39, 0x1EE39); (0x1EE3B, 0x1EE3B); (0x1EE42, 0x1EE42);
   (0x1EE47, 0x1EE47); (0x1EE49, 0x1EE49); (0x1EE4B, 0x1EE4B); (0x1EE4D, 0x1EE4F); (0x1EE51, 0x1EE52); (0x1EE54, 0x1EE54);
   (0x1EE57, 0x1EE57); (0x1EE59, 0x1EE59); (0x1EE5B, 0x1EE5B); (0x1EE5D, 0x1EE5D); (0x1EE5F, 0x1EE5F); (0x1EE61, 0x1EE62);
   (0x1EE64, 0x1EE64); (0x1EE67, 0x1EE6A); (0x1EE6C, 0x1EE72); (0x1EE74, 0x1EE77); (0x1EE79, 0x1EE7C); (0x1EE7E, 0x1EE7E);
   (0x1EE80, 0x1EE89); (0x1EE8B, 0x1EE9B); (0x1EEA1, 0x1EEA3); (0x1EEA5, 0x1EEA9); (0x1EEAB, 0x1EEBB); (0x20000, 0x2A6DF);
   (0x2A700, 0x2B738); (0x2B740, 0x2B81D); (0x2B820, 0x2CEA1); (0x2CEB0, 0x2EBE0); (0x2F800, 0x2FA1D); (0x30000, 0x3134A)]%N.

(** Code points with the Cased property (Lowercase, Uppercase or Lt). *)
Definition cased_table : list (N * N) :=
  [(0x41, 0x5A); (0x61, 0x7A); (0xAA, 0xAA); (0xB5, 0xB5); (0xBA, 0xBA); (0xC0, 0xD6);
   (0xD8, 0xF6); (0xF8, 0x1BA); (0x1BC, 0x1BF); (0x1C4, 0x293); (0x295, 0x2B8); (0x2C0, 0x2C1);
   (0x2E0, 0x2E4); (0x345, 0x345); (0x370, 0x373); (0x376, 0x377); (0x37A, 0x37D); (0x37F, 0x37F);
   (0x386, 0x386); (0x388, 0x38A); (0x38C, 0x38C); (0x38E, 0x3A1); (0x3A3, 0x3F5); (0x3F7, 0x481);
   (0x48A, 0x52F); (0x531, 0x556); (0x560, 0x588); (0x10A0, 0x10C5); (0x10C7, 0x10C7); (0x10CD, 0x10CD);
   (0x10D0, 0x10FA); (0x10FD, 0x10FF); (0x13A0, 0x13F5); (0x13F8, 0x13FD); (0x1C80, 0x1C88); (0x1C90, 0x1CBA);
   (0x1CBD, 0x1CBF); (0x1D00, 0x1DBF); (0x1E00, 0x1F15); (0x1F18, 0x1F1D); (0x1F20, 0x1F45); (0x1F48, 0x1F4D);
   (0x1F50, 0x1F57); (0x1F59, 0x1F59); (0x1F5B, 0x1F5B); (0x1F5D, 0x1F5D); (0x1F5F, 0x1F7D); (0x1F80, 0x1FB4);
   (0x1FB6, 0x1FBC); (0x1FBE, 0x1FBE); (0x1FC2, 0x1FC4); (0x1FC6, 0x1FCC); (0x1FD0, 0x1FD3); (0x1FD6, 0x1FDB);
   (0x1FE0, 0x1FEC); (0x1FF2, 0x1FF4); (0x1FF6, 0x1FFC); (0x2071, 0x2071); (0x207F, 0x207F); (0x2090, 0x209C);
   (0x2102, 0x2102); (0x2107, 0x2107); (0x210A, 0x2113); (0x2115, 0x2115); (0x2119, 0x211D); (0x2124, 0x2124);
   (0x2126, 0x2126); (0x2128, 0x2128); (0x212A, 0x212D); (0x212F, 0x2134); (0x2139, 0x2139); (0x213C, 0x213F);
   (0x2145, 0x2149); (0x214E, 0x214E); (0x2160, 0x217F); (0x2183, 0x2184); (0x24B6, 0x24E9); (0x2C00, 0x2CE4);
   (0x2CEB, 0x2CEE); (0x2CF2, 0x2CF3); (0x2D00, 0x2D25); (0x2D27, 0x2D27); (0x2D2D, 0x2D2D); (0xA640, 0xA66D);
   (0xA680, 0xA69D); (0xA722, 0xA787); (0xA78B, 0xA78E); (0xA790, 0xA7CA); (0xA7D0, 0xA7D1); (0xA7D3, 0xA7D3);
   (0xA7D5, 0xA7D9); (0xA7F5, 0xA7F6); (0xA7F8, 0xA7FA); (0xAB30, 0xAB5A); (0xAB5C, 0xAB68); (0xAB70, 0xABBF);
   (0xFB00, 0xFB06); (0xFB13, 0xFB17); (0xFF21, 0xFF3A); (0xFF41, 0xFF5A); (0x10400, 0x1044F); (0x104B0, 0x104D3);
   (0x104D8, 0x104FB); (0x10570, 0x1057A); (0x1057C, 0x1058A); (0x1058C, 0x10592); (0x10594, 0x10595); (0x10597, 0x105A1);
   (0x105A3, 0x105B1); (0x105B3, 0x105B9); (0x105BB, 0x105BC); (0x10780, 0x10780); (0x10783, 0x10785); (0x10787, 0x107B0);
   (0x107B2, 0x107BA); (0x10C80, 0x10CB2); (0x10CC0, 0x10CF2); (0x118A0, 0x118DF); (0x16E40, 0x16E7F); (0x1D400, 0x1D454);
   (0x1D456, 0x1D49C); (0x1D49E, 0x1D49F); (0x1D4A2, 0x1D4A2); (0x1D4A5, 0x1D4A6); (0x1D4A9, 0x1D4AC); (0x1D4AE, 0x1D4B9);
   (0x1D4BB, 0x1D4BB); (0x1D4BD, 0x1D4C3); (0x1D4C5, 0x1D505); (0x1D507, 0x1D50A); (0x1D50D, 0x1D514); (0x1D516, 0x1D51C);
   (0x1D51E, 0x1D539); (0x1D53B, 0x1D53E); (0x1D540, 0x1D544); (0x1D546, 0x1D546); (0x1D54A, 0x1D550); (0x1D552, 0x1D6A5);
   (0x1D6A8, 0x1D6C0); (0x1D6C2, 0x1D6DA); (0x1D6DC, 0x1D6FA); (0x1D6FC, 0x1D714); (0x1D716, 0x1D734); (0x1D736, 0x1D74E);
   (0x1D750, 0x1D76E); (0x1D770, 0x1D788); (0x1D78A, 0x1D7A8); (0x1D7AA, 0x1D7C2); (0x1D7C4, 0x1D7CB); (0x1DF00, 0x1DF09);
   (0x1DF0B, 0x1DF1E); (0x1E900, 0x1E943); (0x1F130, 0x1F149); (0x1F150, 0x1F169); (0x1F170, 0x1F189)]%N.

(** Code points with the Case_Ignorable property. *)
Definition case_ignorable_table : list (N * N) :=
  [(0x27, 0x27); (0x2E, 0x2E); (0x3A, 0x3A); (0x5E, 0x5E); (0x60, 0x60); (0xA8, 0xA8);
   (0xAD, 0xAD); (0xAF, 0xAF); (0xB4, 0xB4); (0xB7, 0xB8); (0x2B0, 0x36F); (0x374, 0x375);
   (0x37A, 0x37A); (0x384, 0x385); (0x387, 0x387); (0x483, 0x489); (0x559, 0x559); (0x55F, 0x55F);
   (0x591, 0x5BD); (0x5BF, 0x5BF); (0x5C1, 0x5C2); (0x5C4, 0x5C5); (0x5C7, 0x5C7); (0x5F4, 0x5F4);
   (0x600, 0x605); (0x610, 0x61A); (0x61C, 0x61C); (0x640, 0x640); (0x64B, 0x65F); (0x670, 0x670);
   (0x6D6, 0x6DD); (0x6DF, 0x6E8); (0x6EA, 0x6ED); (0x70F, 0x70F); (0x711, 0x711); (0x730, 0x74A);
   (0x7A6, 0x7B0); (0x7EB, 0x7F5); (0x7FA, 0x7FA); (0x7FD, 0x7FD); (0x816, 0x82D); (0x859, 0x85B);
   (0x888, 0x888); (0x890, 0x891); (0x898, 0x89F); (0x8C9, 0x902); (0x93A, 0x93A); (0x93C, 0x93C);
   (0x941, 0x948); (0x94D, 0x94D); (0x951, 0x957); (0x962, 0x963); (0x971, 0x971); (0x981, 0x981);
   (0x9BC, 0x9BC); (0x9C1, 0x9C4); (0x9CD, 0x9CD); (0x9E2, 0x9E3); (0x9FE, 0x9FE); (0xA01, 0xA02);
   (0xA3C, 0xA3C); (0xA41, 0xA42); (0xA47, 0xA48); (0xA4B, 0xA4D); (0xA51, 0xA51); (0xA70, 0xA71);
   (0xA75, 0xA75); (0xA81, 0xA82); (0xABC, 0xABC); (0xAC1, 0xAC5); (0xAC7, 0xAC8); (0xACD, 0xACD);
   (0xAE2, 0xAE3); (0xAFA, 0xAFF); (0xB01, 0xB01); (0xB3C, 0xB3C); (0xB3F, 0xB3F); (0xB41, 0xB44);
   (0xB4D, 0xB4D); (0xB55, 0xB56); (0xB62, 0xB63); (0xB82, 0xB82); (0xBC0, 0xBC0); (0xBCD, 0xBCD);
   (0xC00, 0xC00); (0xC04, 0xC04); (0xC3C, 0xC3C); (0xC3E, 0xC40); (0xC46, 0xC48); (0xC4A, 0xC4D);
   (0xC55, 0xC56); (0xC62, 0xC63); (0xC81, 0xC81); (0xCBC, 0xCBC); (0xCBF, 0xCBF); (0xCC6, 0xCC6);
   (0xCCC, 0xCCD); (0xCE2, 0xCE3); (0xD00, 0xD01); (0xD3B, 0xD3C); (0xD41, 0xD44); (0xD4D, 0xD4D);
   (0xD62, 0xD63); (0xD81, 0xD81); (0xDCA, 0xDCA); (0xDD2, 0xDD4); (0xDD6, 0xDD6); (0xE31, 0xE31);
   (0xE34, 0xE3A); (0xE46, 0xE4E); (0xEB1, 0xEB1); (0xEB4, 0xEBC); (0xEC6, 0xEC6); (0xEC8, 0xECD);
   (0xF18, 0xF19); (0xF35, 0xF35); (0xF37, 0xF37); (0xF39, 0xF39); (0xF71, 0xF7E); (0xF80, 0xF84);
   (0xF86, 0xF87); (0xF8D, 0xF97); (0xF99, 0xFBC); (0xFC6, 0xFC6); (0x102D, 0x1030); (0x1032, 0x1037);
   (0x1039, 0x103A); (0x103D, 0x103E); (0x1058, 0x1059); (0x105E, 0x1060); (0x1071, 0x1074); (0x1082, 0x1082);
   (0x1085, 0x1086); (0x108D, 0x108D); (0x109D, 0x109D); (0x10FC, 0x10FC); (0x135D, 0x135F); (0x1712, 0x1714);
   (0x1732, 0x1733); (0x1752, 0x1753); (0x1772, 0x1773); (0x17B4, 0x17B5); (0x17B7, 0x17BD); (0x17C6, 0x17C6);
   (0x17C9, 0x17D3); (0x17D7, 0x17D7); (0x17DD, 0x17DD); (0x180B, 0x180F); (0x1843, 0x1843); (0x1885, 0x1886);
   (0x18A9, 0x18A9); (0x1920, 0x1922); (0x1927, 0x1928); (0x1932, 0x1932); (0x1939, 0x193B); (0x1A17, 0x1A18);
   (0x1A1B, 0x1A1B); (0x1A56, 0x1A56); (0x1A58, 0x1A5E); (0x1A60, 0x1A60); (0x1A62, 0x1A62); (0x1A65, 0x1A6C);
   (0x1A73, 0x1A7C); (0x1A7F, 0x1A7F); (0x1AA7, 0x1AA7); (0x1AB0, 0x1ACE); (0x1B00, 0x1B03); (0x1B34, 0x1B34);
   (0x1B36, 0x1B3A); (0x1B3C, 0x1B3C); (0x1B42, 0x1B42); (0x1B6B, 0x1B73); (0x1B80, 0x1B81); (0x1BA2, 0x1BA5);
   (0x1BA8, 0x1BA9); (0x1BAB, 0x1BAD); (0x1BE6, 0x1BE6); (0x1BE8, 0x1BE9); (0x1BED, 0x1BED); (0x1BEF, 0x1BF1);
   (0x1C2C, 0x1C33); (0x1C36, 0x1C37); (0x1C78, 0x1C7D); (0x1CD0, 0x1CD2); (0x1CD4, 0x1CE0); (0x1CE2, 0x1CE8);
   (0x1CED, 0x1CED); (0x1CF4, 0x1CF4); (0x1CF8, 0x1CF9); (0x1D2C, 0x1D6A); (0x1D78, 0x1D78); (0x1D9B, 0x1DFF);
   (0x1FBD, 0x1FBD); (0x1FBF, 0x1FC1); (0x1FCD, 0x1FCF); (0x1FDD, 0x1FDF); (0x1FED, 0x1FEF); (0x1FFD, 0x1FFE);
   (0x200B, 0x200F); (0x2018, 0x2019); (0x2024, 0x2024); (0x2027, 0x2027); (0x202A, 0x202E); (0x2060, 0x2064);
   (0x2066, 0x206F); (0x2071, 0x2071); (0x207F, 0x207F); (0x2090, 0x209C); (0x20D0, 0x20F0); (0x2C7C, 0x2C7D);
   (0x2CEF, 0x2CF1); (0x2D6F, 0x2D6F); (0x2D7F, 0x2D7F); (0x2DE0, 0x2DFF); (0x2E2F, 0x2E2F); (0x3005, 0x3005);
   (0x302A, 0x302D); (0x3031, 0x3035); (0x303B, 0x303B); (0x3099, 0x309E); (0x30FC, 0x30FE); (0xA015, 0xA015);
   (0xA4F8, 0xA4FD); (0xA60C, 0xA60C); (0xA66F, 0xA672); (0xA674, 0xA67D); (0xA67F, 0xA67F); (0xA69C, 0xA69F);
   (0xA6F0, 0xA6F1); (0xA700, 0xA721); (0xA770, 0xA770); (0xA788, 0xA78A); (0xA7F2, 0xA7F4); (0xA7F8, 0xA7F9);
   (0xA802, 0xA802); (0xA806, 0xA806); (0xA80B, 0xA80B); (0xA825, 0xA826); (0xA82C, 0xA82C); (0xA8C4, 0xA8C5);
   (0xA8E0, 0xA8F1); (0xA8FF, 0xA8FF); (0xA926, 0xA92D); (0xA947, 0xA951); (0xA980, 0xA982); (0xA9B3, 0xA9B3);
   (0xA9B6, 0xA9B9); (0xA9BC, 0xA9BD); (0xA9CF, 0xA9CF); (0xA9E5, 0xA9E6); (0xAA29, 0xAA2E); (0xAA31, 0xAA32);
   (0xAA35, 0xAA36); (0xAA43, 0xAA43); (0xAA4C, 0xAA4C); (0xAA70, 0xAA70); (0xAA7C, 0xAA7C); (0xAAB0, 0xAAB0);
   (0xAAB2, 0xAAB4); (0xAAB7, 0xAAB8); (0xAABE, 0xAABF); (0xAAC1, 0xAAC1); (0xAADD, 0xAADD); (0xAAEC, 0xAAED);
   (0xAAF3, 0xAAF4); (0xAAF6, 0xAAF6); (0xAB5B, 0xAB5F); (0xAB69, 0xAB6B); (0xABE5, 0xABE5); (0xABE8, 0xABE8);
   (0xABED, 0xABED); (0xFB1E, 0xFB1E); (0xFBB2, 0xFBC2); (0xFE00, 0xFE0F); (0xFE13, 0xFE13); (0xFE20, 0xFE2F);
   (0xFE52, 0xFE52); (0xFE55, 0xFE55); (0xFEFF, 0xFEFF); (0xFF07, 0xFF07); (0xFF0E, 0xFF0E); (0xFF1A, 0xFF1A);
   (0xFF3E, 0xFF3E); (0xFF40, 0xFF40); (0xFF70, 0xFF70); (0xFF9E, 0xFF9F); (0xFFE3, 0xFFE3); (0xFFF9, 0xFFFB);
   (0x101FD, 0x101FD); (0x102E0, 0x102E0); (0x10376, 0x1037A); (0x10780, 0x10785); (0x10787, 0x107B0); (0x107B2, 0x107BA);
   (0x10A01, 0x10A03); (0x10A05, 0x10A06); (0x10A0C, 0x10A0F); (0x10A38, 0x10A3A); (0x10A3F, 0x10A3F); (0x10AE5, 0x10AE6);
   (0x10D24, 0x10D27); (0x10EAB, 0x10EAC); (0x10F46, 0x10F50); (0x10F82, 0x10F85); (0x11001, 0x11001); (0x11038, 0x11046);
   (0x11070, 0x11070); (0x11073, 0x11074); (0x1107F, 0x11081); (0x110B3, 0x110B6); (0x110B9, 0x110BA); (0x110BD, 0x110BD);
   (0x110C2, 0x110C2); (0x110CD, 0x110CD); (0x11100, 0x11102); (0x11127, 0x1112B); (0x1112D, 0x11134); (0x11173, 0x11173);
   (0x11180, 0x11181); (0x111B6, 0x111BE); (0x111C9, 0x111CC); (0x111CF, 0x111CF); (0x1122F, 0x11231); (0x11234, 0x11234);
   (0x11236, 0x11237); (0x1123E, 0x1123E); (0x112DF, 0x112DF); (0x112E3, 0x112EA); (0x11300, 0x11301); (0x1133B, 0x1133C);
   (0x11340, 0x11340); (0x11366, 0x1136C); (0x11370, 0x11374); (0x11438, 0x1143F); (0x11442, 0x11444); (0x11446, 0x11446);
   (0x1145E, 0x1145E); (0x114B3, 0x114B8); (0x114BA, 0x114BA); (0x114BF, 0x114C0); (0x114C2, 0x114C3); (0x115B2, 0x115B5);
   (0x115BC, 0x115BD); (0x115BF, 0x115C0); (0x115DC, 0x115DD); (0x11633, 0x1163A); (0x1163D, 0x1163D); (0x1163F, 0x11640);
   (0x116AB, 0x116AB); (0x116AD, 0x116AD); (0x116B0, 0x116B5); (0x116B7, 0x116B7); (0x1171D, 0x1171F); (0x11722, 0x11725);
   (0x11727, 0x1172B); (0x1182F, 0x11837); (0x11839, 0x1183A); (0x1193B, 0x1193C); (0x1193E, 0x1193E); (0x11943, 0x11943);
   (0x119D4, 0x119D7); (0x119DA, 0x119DB); (0x119E0, 0x119E0); (0x11A01, 0x11A0A); (0x11A33, 0x11A38); (0x11A3B, 0x11A3E);
   (0x11A47, 0x11A47); (0x11A51, 0x11A56); (0x11A59, 0x11A5B); (0x11A8A, 0x11A96); (0x11A98, 0x11A99); (0x11C30, 0x11C36);
   (0x11C38, 0x11C3D); (0x11C3F, 0x11C3F); (0x11C92, 0x11CA7); (0x11CAA, 0x11CB0); (0x11CB2, 0x11CB3); (0x11CB5, 0x11CB6);
   (0x11D31, 0x11D36); (0x11D3A, 0x11D3A); (0x11D3C, 0x11D3D); (0x11D3F, 0x11D45); (0x11D47, 0x11D47); (0x11D90, 0x11D91);
   (0x11D95, 0x11D95); (0x11D97, 0x11D97); (0x11EF3, 0x11EF4); (0x13430, 0x13438); (0x16AF0, 0x16AF4); (0x16B30, 0x16B36);
   (0x16B40, 0x16B43); (0x16F4F, 0x16F4F); (0x16F8F, 0x16F9F); (0x16FE0, 0x16FE1); (0x16FE3, 0x16FE4); (0x1AFF0, 0x1AFF3);
   (0x1AFF5, 0x1AFFB); (0x1AFFD, 0x1AFFE); (0x1BC9D, 0x1BC9E); (0x1BCA0, 0x1BCA3); (0x1CF00, 0x1CF2D); (0x1CF30, 0x1CF46);
   (0x1D167, 0x1D169); (0x1D173, 0x1D182); (0x1D185, 0x1D18B); (0x1D1AA, 0x1D1AD); (0x1D242, 0x1D244); (0x1DA00, 0x1DA36);
   (0x1DA3B, 0x1DA6C); (0x1DA75, 0x1DA75); (0x1DA84, 0x1DA84); (0x1DA9B, 0x1DA9F); (0x1DAA1, 0x1DAAF); (0x1E000, 0x1E006);
   (0x1E008, 0x1E018); (0x1E01B, 0x1E021); (0x1E023, 0x1E024); (0x1E026, 0x1E02A); (0x1E130, 0x1E13D); (0x1E2AE, 0x1E2AE);
   (0x1E2EC, 0x1E2EF); (0x1E8D0, 0x1E8D6); (0x1E944, 0x1E94B); (0x1F3FB, 0x1F3FF); (0xE0001, 0xE0001); (0xE0020, 0xE007F);
   (0xE0100, 0xE01EF)]%N.

(** Simple lower-case mappings: [(first, last, stride, image)] maps the
    code point [first + k * stride <= last] to [image + k * stride]. *)
Definition lower_table : list (N * N * N * N) :=
  [(0x41, 0x5A, 1, 0x61); (0xC0, 0xD6, 1, 0xE0); (0xD8, 0xDE, 1, 0xF8); (0x100, 0x12E, 2, 0x101);
   (0x132, 0x136, 2, 0x133); (0x139, 0x147, 2, 0x13A); (0x14A, 0x176, 2, 0x14B); (0x178, 0x178, 1, 0xFF);
   (0x179, 0x17D, 2, 0x17A); (0x181, 0x181, 1, 0x253); (0x182, 0x184, 2, 0x183); (0x186, 0x186, 1, 0x254);
   (0x187, 0x187, 1, 0x188); (0x189, 0x18A, 1, 0x256); (0x18B, 0x18B, 1, 0x18C); (0x18E, 0x18E, 1, 0x1DD);
   (0x18F, 0x18F, 1, 0x259); (0x190, 0x190, 1, 0x25B); (0x191, 0x191, 1, 0x192); (0x193, 0x193, 1, 0x260);
   (0x194, 0x194, 1, 0x263); (0x196, 0x196, 1, 0x269); (0x197, 0x197, 1, 0x268); (0x198, 0x198, 1, 0x199);
   (0x19C, 0x19C, 1, 0x26F); (0x19D, 0x19D, 1, 0x272); (0x19F, 0x19F, 1, 0x275); (0x1A0, 0x1A4, 2, 0x1A1);
   (0x1A6, 0x1A6, 1, 0x280); (0x1A7, 0x1A7, 1, 0x1A8); (0x1A9, 0x1A9, 1, 0x283); (0x1AC, 0x1AC, 1, 0x1AD);
   (0x1AE, 0x1AE, 1, 0x288); (0x1AF, 0x1AF, 1, 0x1B0); (0x1B1, 0x1B2, 1, 0x28A); (0x1B3, 0x1B5, 2, 0x1B4);
   (0x1B7, 0x1B7, 1, 0x292); (0x1B8, 0x1B8, 1, 0x1B9); (0x1BC, 0x1BC, 1, 0x1BD); (0x1C4, 0x1C4, 1, 0x1C6);
   (0x1C5, 0x1C5, 1, 0x1C6); (0x1C7, 0x1C7, 1, 0x1C9); (0x1C8, 0x1C8, 1, 0x1C9); (0x1CA, 0x1CA, 1, 0x1CC);
   (0x1CB, 0x1DB, 2, 0x1CC); (0x1DE, 0x1EE, 2, 0x1DF); (0x1F1, 0x1F1, 1, 0x1F3); (0x1F2, 0x1F4, 2, 0x1F3);
   (0x1F6, 0x1F6, 1, 0x195); (0x1F7, 0x1F7, 1, 0x1BF); (0x1F8, 0x21E, 2, 0x1F9); (0x220, 0x220, 1, 0x19E);
   (0x222, 0x232, 2, 0x223); (0x23A, 0x23A, 1, 0x2C65); (0x23B, 0x23B, 1, 0x23C); (0x23D, 0x23D, 1, 0x19A);
   (0x23E, 0x23E, 1, 0x2C66); (0x241, 0x241, 1, 0x242); (0x243, 0x243, 1, 0x180); (0x244, 0x244, 1, 0x289);
   (0x245, 0x245, 1, 0x28C); (0x246, 0x24E, 2, 0x247); (0x370, 0x372, 2, 0x371); (0x376, 0x376, 1, 0x377);
   (0x37F, 0x37F, 1, 0x3F3); (0x386, 0x386, 1, 0x3AC); (0x388, 0x38A, 1, 0x3AD); (0x38C, 0x38C, 1, 0x3CC);
   (0x38E, 0x38F, 1, 0x3CD); (0x391, 0x3A1, 1, 0x3B1); (0x3A4, 0x3AB, 1, 0x3C4); (0x3CF, 0x3CF, 1, 0x3D7);
   (0x3D8, 0x3EE, 2, 0x3D9); (0x3F4, 0x3F4, 1, 0x3B8); (0x3F7, 0x3F7, 1, 0x3F8); (0x3F9, 0x3F9, 1, 0x3F2);
   (0x3FA, 0x3FA, 1, 0x3FB); (0x3FD, 0x3FF, 1, 0x37B); (0x400, 0x40F, 1, 0x450); (0x410, 0x42F, 1, 0x430);
   (0x460, 0x480, 2, 0x461); (0x48A, 0x4BE, 2, 0x48B); (0x4C0, 0x4C0, 1, 0x4CF); (0x4C1, 0x4CD, 2, 0x4C2);
   (0x4D0, 0x52E, 2, 0x4D1); (0x531, 0x556, 1, 0x561); (0x10A0, 0x10C5, 1, 0x2D00); (0x10C7, 0x10C7, 1, 0x2D27);
   (0x10CD, 0x10CD, 1, 0x2D2D); (0x13A0, 0x13EF, 1, 0xAB70); (0x13F0, 0x13F5, 1, 0x13F8); (0x1C90, 0x1CBA, 1, 0x10D0);
   (0x1CBD, 0x1CBF, 1, 0x10FD); (0x1E00, 0x1E94, 2, 0x1E01); (0x1E9E, 0x1E9E, 1, 0xDF); (0x1EA0, 0x1EFE, 2, 0x1EA1);
   (0x1F08, 0x1F0F, 1, 0x1F00); (0x1F18, 0x1F1D, 1, 0x1F10); (0x1F28, 0x1F2F, 1, 0x1F20); (0x1F38, 0x1F3F, 1, 0x1F30);
   (0x1F48, 0x1F4D, 1, 0x1F40); (0x1F59, 0x1F5F, 2, 0x1F51); (0x1F68, 0x1F6F, 1, 0x1F60); (0x1F88, 0x1F8F, 1, 0x1F80);
   (0x1F98, 0x1F9F, 1, 0x1F90); (0x1FA8, 0x1FAF, 1, 0x1FA0); (0x1FB8, 0x1FB9, 1, 0x1FB0); (0x1FBA, 0x1FBB, 1, 0x1F70);
   (0x1FBC, 0x1FBC, 1, 0x1FB3); (0x1FC8, 0x1FCB, 1, 0x1F72); (0x1FCC, 0x1FCC, 1, 0x1FC3); (0x1FD8, 0x1FD9, 1, 0x1FD0);
   (0x1FDA, 0x1FDB, 1, 0x1F76); (0x1FE8, 0x1FE9, 1, 0x1FE0); (0x1FEA, 0x1FEB, 1, 0x1F7A); (0x1FEC, 0x1FEC, 1, 0x1FE5);
   (0x1FF8, 0x1FF9, 1, 0x1F78); (0x1FFA, 0x1FFB, 1, 0x1F7C); (0x1FFC, 0x1FFC, 1, 0x1FF3); (0x2126, 0x2126, 1, 0x3C9);
   (0x212A, 0x212A, 1, 0x6B); (0x212B, 0x212B, 1, 0xE5); (0x2132, 0x2132, 1, 0x214E); (0x2160, 0x216F, 1, 0x2170);
   (0x2183, 0x2183, 1, 0x2184); (0x24B6, 0x24CF, 1, 0x24D0); (0x2C00, 0x2C2F, 1, 0x2C30); (0x2C60, 0x2C60, 1, 0x2C61);
   (0x2C62, 0x2C62, 1, 0x26B); (0x2C63, 0x2C63, 1, 0x1D7D); (0x2C64, 0x2C64, 1, 0x27D); (0x2C67, 0x2C6B, 2, 0x2C68);
   (0x2C6D, 0x2C6D, 1, 0x251); (0x2C6E, 0x2C6E, 1, 0x271); (0x2C6F, 0x2C6F, 1, 0x250); (0x2C70, 0x2C70, 1, 0x252);
   (0x2C72, 0x2C72, 1, 0x2C73); (0x2C75, 0x2C75, 1, 0x2C76); (0x2C7E, 0x2C7F, 1, 0x23F); (0x2C80, 0x2CE2, 2, 0x2C81);
   (0x2CEB, 0x2CED, 2, 0x2CEC); (0x2CF2, 0x2CF2, 1, 0x2CF3); (0xA640, 0xA66C, 2, 0xA641); (0xA680, 0xA69A, 2, 0xA681);
   (0xA722, 0xA72E, 2, 0xA723); (0xA732, 0xA76E, 2, 0xA733); (0xA779, 0xA77B, 2, 0xA77A); (0xA77D, 0xA77D, 1, 0x1D79);
   (0xA77E, 0xA786, 2, 0xA77F); (0xA78B, 0xA78B, 1, 0xA78C); (0xA78D, 0xA78D, 1, 0x265); (0xA790, 0xA792, 2, 0xA791);
   (0xA796, 0xA7A8, 2, 0xA797); (0xA7AA, 0xA7AA, 1, 0x266); (0xA7AB, 0xA7AB, 1, 0x25C); (0xA7AC, 0xA7AC, 1, 0x261);
   (0xA7AD, 0xA7AD, 1, 0x26C); (0xA7AE, 0xA7AE, 1, 0x26A); (0xA7B0, 0xA7B0, 1, 0x29E); (0xA7B1, 0xA7B1, 1, 0x287);
   (0xA7B2, 0xA7B2, 1, 0x29D); (0xA7B3, 0xA7B3, 1, 0xAB53); (0xA7B4, 0xA7C2, 2, 0xA7B5); (0xA7C4, 0xA7C4, 1, 0xA794);
   (0xA7C5, 0xA7C5, 1, 0x282); (0xA7C6, 0xA7C6, 1, 0x1D8E); (0xA7C7, 0xA7C9, 2, 0xA7C8); (0xA7D0, 0xA7D0, 1, 0xA7D1);
   (0xA7D6, 0xA7D8, 2, 0xA7D7); (0xA7F5, 0xA7F5, 1, 0xA7F6); (0xFF21, 0xFF3A, 1, 0xFF41); (0x10400, 0x10427, 1, 0x10428);
   (0x104B0, 0x104D3, 1, 0x104D8); (0x10570, 0x1057A, 1, 0x10597); (0x1057C, 0x1058A, 1, 0x105A3); (0x1058C, 0x10592, 1, 0x105B3);
   (0x10594, 0x10595, 1, 0x105BB); (0x10C80, 0x10CB2, 1, 0x10CC0); (0x118A0, 0x118BF, 1, 0x118C0); (0x16E40, 0x16E5F, 1, 0x16E60);
   (0x1E900, 0x1E921, 1, 0x1E922)]%N.

(** Whitespace as [str.strip()] and [str.split()] see it
    ([Py_UNICODE_ISSPACE]). *)
Definition space_table : list (N * N) :=
  [(0x9, 0xD); (0x1C, 0x20); (0x85, 0x85); (0xA0, 0xA0); (0x1680, 0x1680);
   (0x2000, 0x200A); (0x2028, 0x2029); (0x202F, 0x202F); (0x205F, 0x205F);
   (0x3000, 0x3000)]%N.

Definition char_isalpha (c : codepoint) : bool := in_ranges alpha_table c.
Definition char_isspace (c : codepoint) : bool := in_ranges space_table c.
Definition char_iscased (c : codepoint) : bool := in_ranges cased_table c.
Definition char_iscase_ignorable (c : codepoint) : bool :=
  in_ranges case_ignorable_table c.

(** [str.isalpha()]: at least one character and every character alphabetic. *)
Definition str_isalpha (s : pystr) : bool :=
  match s with
  | [] => false
  | _ => forallb char_isalpha s
  end.

(** [str.lower()].  Every character is replaced by its full lower-case
    mapping; GREEK CAPITAL LETTER SIGMA depends on its context
    ([handle_capital_sigma] in CPython's [unicodeobject.c]). *)
Fixpoint lower_lookup (tbl : list (N * N * N * N)) (c : codepoint) : codepoint :=
  match tbl with
  | [] => c
  | (lo, hi, stride, img) :: tbl' =>
    if (lo <=? c) && (c <=? hi) && ((c - lo) mod stride =? 0)
    then img + (c - lo)
    else lower_lookup tbl' c
  end.

Definition to_lower_full (c : codepoint) : pystr :=
  if c =? 0x130 then [0x69; 0x307] else [lower_lookup lower_table c].

(** The first character that is not case-ignorable, if any. *)
Fixpoint skip_case_ignorable (s : pystr) : option codepoint :=
  match s with
  | [] => None
  | c :: s' => if char_iscase_ignorable c then skip_case_ignorable s' else Some c
  end.

(** [before] holds the characters to the left of the sigma, nearest first. *)
Definition handle_capital_sigma (before after : pystr) : codepoint :=
  let final_sigma :=
    match skip_case_ignorable before with
    | Some c => char_iscased c
    | None => false
    end in
  let final_sigma :=
    final_sigma &&
    match skip_case_ignorable after with
    | Some c => negb (char_iscased c)
    | None => true
    end in
  if final_sigma then 0x3C2 else 0x3C3.

Definition lower_char (before : pystr) (c : codepoint) (after : pystr) : pystr :=
  if c =? 0x3A3 then [handle_capital_sigma before after] else to_lower_full c.

Fixpoint lower_from (before s : pystr) : pystr :=
  match s with
  | [] => []
  | c :: s' => lower_char before c s' ++ lower_from (c :: before) s'
  end.

Definition str_lower (s : pystr) : pystr := lower_from [] s.

(** [str.strip()] with no argument. *)
Fixpoint lstrip (s : pystr) : pystr :=
  match s with
  | c :: s' => if char_isspace c then lstrip s' else s
  | [] => []
  end.

Definition rstrip (s : pystr) : pystr := rev (lstrip (rev s)).

Definition str_strip (s : pystr) : pystr := rstrip (lstrip s).

(** [str.split()] with no argument: the maximal runs of non-whitespace
    characters, in order.  [cur] is the run being read, last character
    first. *)
Fixpoint split_whitespace (cur s : pystr) : list pystr :=
  match s with
  | [] => match cur with [] => [] | _ => [rev cur] end
  | c :: s' =>
    if char_isspace c
    then match cur with
         | [] => split_whitespace [] s'
         | _ => rev cur :: split_whitespace [] s'
         end
    else split_whitespace (c :: cur) s'
  end.

Definition str_split (s : pystr) : list pystr := split_whitespace [] s.

(** [s.split(sep)] for a one-character separator: one more piece than there
    are separators, empty pieces included. *)
Fixpoint str_split_on (sep : codepoint) (s : pystr) : list pystr :=
  match s with
  | [] => [[]]
  | c :: s' =>
    if c =? sep then [] :: str_split_on sep s'
    else match str_split_on sep s' with
         | piece :: pieces => (c :: piece) :: pieces
         | [] => [[c]]
         end
  end.

(** [c in s] for a one-character [c]. *)
Definition str_contains (c : codepoint) (s : pystr) : bool :=
  existsb (N.eqb c) s.

(** ** Regular expressions

    The fragment of Python's [re] syntax the parser uses: literals, sets and
    [.] (all one-character classes), concatenation, [|], [*], [+] and [?]. *)

Inductive regex : Type :=
| ReNone                                  (* no string at all *)
| ReEmpty                                 (* the empty pattern *)
| ReClass (cls : codepoint -> bool)       (* one character of a class *)
| ReSeq (r1 r2 : regex)
| ReAlt (r1 r2 : regex)
| ReStar (r : regex).

Definition RePlus (r : regex) : regex := ReSeq r (ReStar r).
Definition ReOpt (r : regex) : regex := ReAlt r ReEmpty.
Definition ReChar (c : codepoint) : regex := ReClass (N.eqb c).
(** [.] without [re.DOTALL]: any character but the newline. *)
Definition not_newline (c : codepoint) : bool := negb (c =? 0x0A).
Definition ReDot : regex := ReClass not_newline.

(** The strings a pattern matches in full. *)
Inductive re_lang : regex -> pystr -> Prop :=
| lang_empty : re_lang ReEmpty []
| lang_class cls c : cls c = true -> re_lang (ReClass cls) [c]
| lang_seq r1 r2 s1 s2 :
    re_lang r1 s1 -> re_lang r2 s2 -> re_lang (ReSeq r1 r2) (s1 ++ s2)
| lang_alt_l r1 r2 s : re_lang r1 s -> re_lang (ReAlt r1 r2) s
| lang_alt_r r1 r2 s : re_lang r2 s -> re_lang (ReAlt r1 r2) s
| lang_star_nil r : re_lang (ReStar r) []
| lang_star_cons r s1 s2 :
    re_lang r s1 -> re_lang (ReStar r) s2 -> re_lang (ReStar r) (s1 ++ s2).

Fixpoint re_nullable (r : regex) : bool :=
  match r with
  | ReNone => false
  | ReEmpty => true
  | ReClass _ => false
  | ReSeq r1 r2 => re_nullable r1 && re_nullable r2
  | ReAlt r1 r2 => re_nullable r1 || re_nullable r2
  | ReStar _ => true
  end.

(** What is left of the pattern once it has read [c]. *)
Fixpoint re_deriv (c : codepoint) (r : regex) : regex :=
  match r with
  | ReNone => ReNone
  | ReEmpty => ReNone
  | ReClass cls => if cls c then ReEmpty else ReNone
  | ReSeq r1 r2 =>
    if re_nullable r1
    then ReAlt (ReSeq (re_deriv c r1) r2) (re_deriv c r2)
    else ReSeq (re_deriv c r1) r2
  | ReAlt r1 r2 => ReAlt (re_deriv c r1) (re_deriv c r2)
  | ReStar r1 => ReSeq (re_deriv c r1) (ReStar r1)
  end.

(** [bool(re.fullmatch(r, s))]. *)
Fixpoint re_fullmatch (r : regex) (s : pystr) : bool :=
  match s with
  | [] => re_nullable r
  | c :: s' => re_fullmatch (re_deriv c r) s'
  end.

(** [bool(re.match(r, s))]: the pattern matches at the start of [s]; what
    follows the match is not looked at. *)
Fixpoint re_match (r : regex) (s : pystr) : bool :=
  re_nullable r ||
  match s with
  | [] => false
  | c :: s' => re_match (re_deriv c r) s'
  end.

(** [re.sub(r, repl, s)] for a pattern [r] all of whose matches are one
    character long: each matching character is replaced. *)
Definition re_sub_chars (r : regex) (repl s : pystr) : pystr :=
  flat_map (fun c => if re_fullmatch r [c] then repl else [c]) s.

(** ** Exceptions and results *)

(** The [detail] of the parser's [HTTPException]s. *)
Inductive detail : Type :=
| DetailUnrecognizedToken (word : pystr)
    (* f'Токен {word} не является ни леммой, ни pos-тегом, ни точной формой' *)
| DetailTooManyOperators                  (* 'Слишком много плюсов' *)
| DetailInvalidCombination
    (* 'В случае запроса через плюс первая часть должна быть леммой или
       точной формой, а вторая - pos-тегом' *)
| DetailInvalidLength.                    (* 'Принимаем от 1- до триграмм' *)

Inductive exn : Type :=
| HTTPException (status_code : Z) (d : detail)
| ValueError (msg : string)
| TypeError (msg : string)
| AttributeError (msg : string)
| IndexError.

Definition HTTP_400_BAD_REQUEST : Z := 400.

(** The error kinds under the names the specification gives them. *)
Definition UnrecognizedTokenError (word : pystr) : exn :=
  HTTPException HTTP_400_BAD_REQUEST (DetailUnrecognizedToken word).
Definition TooManyOperatorsError : exn :=
  HTTPException HTTP_400_BAD_REQUEST DetailTooManyOperators.
Definition InvalidCombinationError : exn :=
  HTTPException HTTP_400_BAD_REQUEST DetailInvalidCombination.
Definition InvalidLengthError : exn :=
  HTTPException HTTP_400_BAD_REQUEST DetailInvalidLength.
Definition InvalidTrigramError : exn :=
  ValueError "Trigram cannot contain all None".
Definition TypeMismatchError : exn :=
  TypeError "Compared value must be the same type.".

Inductive result (A : Type) : Type :=
| Ok (a : A)
| Err (e : exn).
Arguments Ok {A} a.
Arguments Err {A} e.

Definition result_bind {A B} (r : result A) (k : A -> result B) : result B :=
  match r with
  | Ok a => k a
  | Err e => Err e
  end.

#[global] Instance result_mbind : MBind result :=
  fun A B k r => result_bind r k.

(** [l[i]] on a sequence: negative indices count from the end, anything
    outside raises [IndexError]. *)
Definition seq_getitem {A} (l : list A) (i : Z) : result A :=
  let n := Z.of_nat (length l) in
  let j := (if i <? 0 then i + n else i)%Z in
  if ((j <? 0) || (n <=? j))%Z then Err IndexError
  else match l !! Z.to_nat j with
       | Some a => Ok a
       | None => Err IndexError
       end.

(** ** Calls to the morphological analyzer

    [morph.parse] belongs to pymorphy2.  A computation either returns,
    raises, or asks the analyzer for the parses of a word and goes on with
    the answer. *)

(** A pymorphy2 [Parse]; the parser reads its [normal_form] only. *)
Record Parse : Type := { normal_form : pystr }.

Inductive prog (A : Type) : Type :=
| Return (a : A)
| Raise (e : exn)
| MorphParse (word : pystr) (k : list Parse -> prog A).
Arguments Return {A} a.
Arguments Raise {A} e.
Arguments MorphParse {A} word k.

Fixpoint prog_bind {A B} (p : prog A) (f : A -> prog B) : prog B :=
  match p with
  | Return a => f a
  | Raise e => Raise e
  | MorphParse w k => MorphParse w (fun parsed => prog_bind (k parsed) f)
  end.

Definition lift {A} (r : result A) : prog A :=
  match r with
  | Ok a => Return a
  | Err e => Raise e
  end.

#[global] Instance prog_mbind : MBind prog :=
  fun A B f p => prog_bind p f.

(** Runs a computation against an analyzer: the words handed to
    [morph.parse], in call order, and the outcome. *)
Fixpoint run {A} (morph : pystr -> list Parse) (p : prog A)
  : list pystr * result A :=
  match p with
  | Return a => ([], Ok a)
  | Raise e => ([], Err e)
  | MorphParse w k =>
    let '(calls, r) := run morph (k (morph w)) in (w :: calls, r)
  end.

Definition outcome {A} (morph : pystr -> list Parse) (p : prog A) : result A :=
  snd (run morph p).
Definition morph_calls {A} (morph : pystr -> list Parse) (p : prog A)
  : list pystr :=
  fst (run morph p).

(** ** [_parser.py] *)

Definition possible_pos_tags : gset pystr :=
  list_to_set
    [u "ADJ"; u "ADP"; u "ADV"; u "AUX"; u "INTJ"; u "CCONJ"; u "NOUN";
     u "DET"; u "PROPN"; u "NUM"; u "VERB"; u "PART"; u "PRON"; u "SCONJ";
     u "SYM"; u "X"].

(** The set [a-zA-Zа-яА-Я]. *)
Definition latin_cyrillic_class (c : codepoint) : bool :=
  in_ranges [(0x61, 0x7A); (0x41, 0x5A); (0x430, 0x44F); (0x410, 0x42F)] c.

Definition double_quote : codepoint := 0x22.
Definition single_quote : codepoint := 0x27.
Definition hyphen : codepoint := 0x2D.
Definition plus : codepoint := 0x2B.

(** The pattern of [is_a_word]: [a-zA-Zа-яА-Я]+-?[a-zA-Zа-яА-Я]+ *)
Definition word_pattern : regex :=
  ReSeq (RePlus (ReClass latin_cyrillic_class))
        (ReSeq (ReOpt (ReChar hyphen))
               (RePlus (ReClass latin_cyrillic_class))).

(** The pattern of [is_exact_form]: a double quote, [.*] and a double quote,
    or the same between single quotes. *)
Definition exact_form_pattern : regex :=
  ReAlt (ReSeq (ReChar double_quote)
               (ReSeq (ReStar ReDot) (ReChar double_quote)))
        (ReSeq (ReChar single_quote)
               (ReSeq (ReStar ReDot) (ReChar single_quote))).

(** The pattern of the substitution in [parse_word]: a single quote or a
    double quote. *)
Definition quote_pattern : regex :=
  ReAlt (ReChar single_quote) (ReChar double_quote).

Definition is_a_word (word : pystr) : bool :=
  str_isalpha word || re_match word_pattern word.

Definition is_exact_form (word : pystr) : bool :=
  re_match exact_form_pattern word.

Definition is_pos_tag (word : pystr) : bool :=
  bool_decide (word ∈ possible_pos_tags).

(** The values of a requirement dict: a string, or the list made from a set
    of strings ([list(normal_forms)]), whose order is the set's iteration
    order and is not part of the model. *)
Inductive reqval : Type :=
| VStr (s : pystr)
| VList (elems : gset pystr).

(** [result.update(d)]: the entries of [d] replace those of [result]. *)
Definition dict_update {V} (result d : gmap string V) : gmap string V :=
  d ∪ result.

Definition parse_word (word : pystr) : prog (gmap string reqval) :=
  if is_pos_tag word then
    Return {[ "pos" := VStr word ]}
  else if is_exact_form word then
    Return {[ "word_form" :=
                VStr (re_sub_chars quote_pattern [] (str_lower word)) ]}
  else if is_a_word word then
    MorphParse word (fun parsed =>
      let normal_forms : gset pystr :=
        list_to_set (map (fun p => str_lower (normal_form p)) parsed) in
      Return {[ "lemma" := VList normal_forms ]})
  else
    Raise (HTTPException HTTP_400_BAD_REQUEST (DetailUnrecognizedToken word)).

Definition parse_single_part (part : pystr) : prog (gmap string reqval) :=
  let result : gmap string reqval := ∅ in
  if str_contains plus part then
    let subparts := str_split_on plus part in
    if (2 <? length subparts)%nat then
      Raise (HTTPException HTTP_400_BAD_REQUEST DetailTooManyOperators)
    else
      s0 ← lift (seq_getitem subparts 0);
      s1 ← lift (seq_getitem subparts 1);
      if negb ((is_a_word s0 || is_exact_form s0) && is_pos_tag s1) then
        Raise (HTTPException HTTP_400_BAD_REQUEST DetailInvalidCombination)
      else
        let result := <[ "pos" := VStr s1 ]> result in
        d ← parse_word s0;
        Return (dict_update result d)
  else
    d ← parse_word part;
    Return (dict_update result d).

(** A dict with integer keys, in insertion order.  [d[k] = v] replaces the
    value of a key already there and appends a new key otherwise. *)
Fixpoint dict_set {V} (d : list (Z * V)) (k : Z) (v : V) : list (Z * V) :=
  match d with
  | [] => [(k, v)]
  | (k', v') :: d' =>
    if (k' =? k)%Z then (k, v) :: d' else (k', v') :: dict_set d' k v
  end.

(** The [for i, part in enumerate(search_parts)] loop, from index [i] on. *)
Fixpoint request_loop (i : Z) (search_parts : list pystr)
    (requirements_for_tokens : list (Z * gmap string reqval))
  : prog (list (Z * gmap string reqval)) :=
  match search_parts with
  | [] => Return requirements_for_tokens
  | part :: rest =>
    r ← parse_single_part part;
    request_loop (i + 1) rest (dict_set requirements_for_tokens (i + 1)%Z r)
  end.

Definition request_to_trigram (request : pystr)
  : prog (list (Z * gmap string reqval)) :=
  let requirements_for_tokens := [] in
  let search_parts := str_split (str_strip request) in
  if ((3 <? length search_parts) || (length search_parts <? 1))%nat then
    Raise (HTTPException HTTP_400_BAD_REQUEST DetailInvalidLength)
  else
    request_loop 0 search_parts requirements_for_tokens.

(** ** [_data_structures.py] *)

Record Token : Type := {
  text_position : Z * Z;
  sentence : Z;
  wordform : Z;
  lemma : Z;
  pos_tag : Z
}.

(** The values a [Token] gets compared with: [None], another [Token], and
    values of other classes (integers and strings stand for those). *)
Inductive pyval : Type :=
| PyNone
| PyToken (t : Token)
| PyInt (n : Z)
| PyStr (s : pystr).

(** [v == None].  On a [Token] this is [Token.__eq__(v, None)], whose first
    line answers [False]; [None == None] is [True]; an integer or a string
    is not [None]. *)
Definition eq_None (v : pyval) : bool :=
  match v with
  | PyNone => true
  | PyToken _ | PyInt _ | PyStr _ => false
  end.

Definition tuple_eqb (a b : Z * Z) : bool :=
  ((fst a =? fst b) && (snd a =? snd b))%Z.

(** [Token.__eq__] *)
Definition Token_eq (self : Token) (value : pyval) : result bool :=
  if eq_None value then Ok false
  else match value with
       | PyToken other =>
         Ok ((wordform self =? wordform other)%Z &&
             (lemma self =? lemma other)%Z &&
             (pos_tag self =? pos_tag other)%Z &&
             tuple_eqb (text_position self) (text_position other))
       | _ => Err (TypeError "Compared value must be the same type.")
       end.

(** [a == b].  A [Token] on the left answers with its own [__eq__]; [None],
    integers and strings do not know a [Token], so with a [Token] on the
    right Python asks it instead (the reflected call). *)
Definition py_eq (a b : pyval) : result bool :=
  match a, b with
  | PyToken t, _ => Token_eq t b
  | _, PyToken t => Token_eq t a
  | PyNone, PyNone => Ok true
  | PyInt m, PyInt n => Ok (m =? n)%Z
  | PyStr s, PyStr t => Ok (bool_decide (s = t))
  | _, _ => Ok false
  end.

(** A slot of a trigram: a [Token] or [None]. *)
Definition slot_val (slot : option Token) : pyval :=
  match slot with
  | Some t => PyToken t
  | None => PyNone
  end.

Definition slots : Type := option Token * option Token * option Token.

(** [trigram[key]] on the three-element tuple. *)
Definition tuple_getitem (trigram : slots) (key : Z) : result (option Token) :=
  let '(t0, t1, t2) := trigram in seq_getitem [t0; t1; t2] key.

(** [trigram[0] == trigram[1] == trigram[2] == None], a chain of three
    comparisons joined by [and]. *)
Definition all_None (trigram : slots) : result bool :=
  let '(t0, t1, t2) := trigram in
  b01 ← py_eq (slot_val t0) (slot_val t1);
  if (b01 : bool) then
    b12 ← py_eq (slot_val t1) (slot_val t2);
    if (b12 : bool) then py_eq (slot_val t2) PyNone else Ok false
  else Ok false.

(** One test of [while trigram[i] == None]. *)
Inductive loop_test : Type :=
| Continue
| Break
| Fail (e : exn).

Definition test_None (trigram : slots) (i : Z) : loop_test :=
  match tuple_getitem trigram i with
  | Err e => Fail e
  | Ok slot =>
    match py_eq (slot_val slot) PyNone with
    | Err e => Fail e
    | Ok true => Continue
    | Ok false => Break
    end
  end.

(** Keeps the equation of a case analysis at hand. *)
Definition inspect {A : Type} (a : A) : {b : A | a = b} := exist _ a eq_refl.

(** A test that says [Continue] has read a slot, so its index is in range. *)
Ltac index_in_range H :=
  unfold test_None, tuple_getitem, seq_getitem in H;
  repeat match type of H with
         | context [let '(_, _) := ?t in _] => destruct t
         end;
  simpl in H;
  repeat match type of H with
         | context [(?a <? ?b)%Z] => destruct (Z.ltb_spec a b)
         | context [(?a <=? ?b)%Z] => destruct (Z.leb_spec a b)
         end;
  simpl in H; try discriminate H; try lia.

(** [first_not_none = i; while trigram[first_not_none] == None:
    first_not_none += 1] *)
Equations? first_not_none_loop (trigram : slots) (i : Z) : result Z
  by wf (Z.to_nat (3 - i)) lt :=
  first_not_none_loop trigram i with inspect (test_None trigram i) := {
    | exist _ Continue H => first_not_none_loop trigram (i + 1)%Z;
    | exist _ Break _ => Ok i;
    | exist _ (Fail e) _ => Err e }.
Proof. index_in_range H. Qed.

(** [last_not_none = i; while trigram[last_not_none] == None:
    last_not_none -= 1] *)
Equations? last_not_none_loop (trigram : slots) (i : Z) : result Z
  by wf (Z.to_nat (i + 4)) lt :=
  last_not_none_loop trigram i with inspect (test_None trigram i) := {
    | exist _ Continue H => last_not_none_loop trigram (i - 1)%Z;
    | exist _ Break _ => Ok i;
    | exist _ (Fail e) _ => Err e }.
Proof. index_in_range H. Qed.

Record Trigram : Type := {
  trigram : slots;
  trigram_text_position : Z * Z
}.

(** [trigram[i].text_position]; [None] has no such attribute. *)
Definition slot_position (trigram : slots) (i : Z) : result (Z * Z) :=
  slot ← tuple_getitem trigram i;
  match slot with
  | Some t => Ok (text_position t)
  | None =>
    Err (AttributeError "'NoneType' object has no attribute 'text_position'")
  end.

(** [Trigram.__init__] *)
Definition Trigram_init (tokens : slots) : result Trigram :=
  b ← all_None tokens;
  if (b : bool) then Err (ValueError "Trigram cannot contain all None") else
  first_not_none ← first_not_none_loop tokens 0;
  last_not_none ← last_not_none_loop tokens 2;
  p_first ← slot_position tokens first_not_none;
  p_last ← slot_position tokens last_not_none;
  Ok {| trigram := tokens;
        trigram_text_position := (fst p_first, snd p_last) |}.

(** ** The specification's notions *)

(** A string wrapped in a pair of the quote character [q] that covers it
    whole: it starts with [q], ends with another [q], nothing before or
    after. *)
Definition wrapped_in (q : codepoint) (s : pystr) : bool :=
  match s with
  | c :: rest =>
    (c =? q) && match last rest with
                | Some c' => c' =? q
                | None => false
                end
  | [] => false
  end.

Definition fully_quoted (s : pystr) : bool :=
  wrapped_in single_quote s || wrapped_in double_quote s.

(** Without its first and its last character. *)
Definition strip_enclosing (s : pystr) : pystr :=
  match s with
  | _ :: rest => removelast rest
  | [] => []
  end.

Definition is_quote (c : codepoint) : bool :=
  (c =? single_quote) || (c =? double_quote).

(** Without any quote character, wherever it stands. *)
Definition remove_quotes (s : pystr) : pystr :=
  List.filter (fun c => negb (is_quote c)) s.

(** Letters of the Latin and Cyrillic scripts: the alphabetic characters of
    the blocks Basic Latin to Latin Extended-B, Latin Extended Additional,
    and Cyrillic with its Supplement. *)
Definition latin_or_cyrillic_letter (c : codepoint) : bool :=
  char_isalpha c &&
  in_ranges [(0x41, 0x24F); (0x1E00, 0x1EFF); (0x400, 0x52F)] c.

Definition alphabetic_run (s : pystr) : bool :=
  match s with
  | [] => false
  | _ => forallb latin_or_cyrillic_letter s
  end.

(** The word predicate as the specification words it: all Latin or Cyrillic
    letters, or two runs of them with a single hyphen between. *)
Definition spec_is_word (s : pystr) : bool :=
  alphabetic_run s ||
  match str_split_on hyphen s with
  | [a; b] => alphabetic_run a && alphabetic_run b
  | _ => false
  end.

(** A non-empty run of characters of the set [a-zA-Zа-яА-Я]. *)
Definition letter_run (s : pystr) : bool :=
  match s with
  | [] => false
  | _ => forallb latin_cyrillic_class s
  end.

(** A run of letters, an optional hyphen, a run of letters. *)
Definition word_form (s : pystr) : Prop :=
  exists a b : pystr,
    letter_run a = true /\ letter_run b = true /\
    (s = a ++ b \/ s = a ++ hyphen :: b).


Definition first_present (t : slots) : option Token :=
  let '(t0, t1, t2) := t in
  match t0, t1, t2 with
  | Some a, _, _ => Some a
  | None, Some a, _ => Some a
  | None, None, c => c
  end.

Definition last_present (t : slots) : option Token :=
  let '(t0, t1, t2) := t in
  match t2, t1, t0 with
  | Some a, _, _ => Some a
  | None, Some a, _ => Some a
  | None, None, c => c
  end.

Definition all_absent (t : slots) : Prop :=
  t = (None, None, None).

(** The attributes that decide the equality of two tokens. *)
Definition same_token_fields (t1 t2 : Token) : Prop :=
  wordform t1 = wordform t2 /\ lemma t1 = lemma t2 /\
  pos_tag t1 = pos_tag t2 /\ text_position t1 = text_position t2.

(** The keys a requirement may hold. *)
Definition requirement_keys : gset string :=
  {[ "pos"; "lemma"; "word_form" ]}.

Definition well_formed_requirement (r : gmap string reqval) : Prop :=
  dom r ⊆ requirement_keys /\
  ~ ("lemma" ∈ dom r /\ "word_form" ∈ dom r).

(** The positions [1..n]. *)
Definition positions (n : nat) : list Z :=
  map Z.of_nat (seq 1 n).

(** Every segment parsed in order; the first failure is the outcome. *)
Fixpoint parse_segments (morph : pystr -> list Parse) (segments : list pystr)
  : result (list (gmap string reqval)) :=
  match segments with
  | [] => Ok []
  | seg :: rest =>
    match outcome morph (parse_single_part seg) with
    | Err e => Err e
    | Ok r =>
      match parse_segments morph rest with
      | Err e => Err e
      | Ok rs => Ok (r :: rs)
      end
    end
  end.

(** ** Sample data *)

(** An analyzer that knows one parse of every word: the word itself. *)
Definition echo_morph (word : pystr) : list Parse :=
  [ {| normal_form := word |} ].

Definition sample_token (first last : Z) : Token :=
  {| text_position := (first, last); sentence := 0%Z;
     wordform := 7%Z; lemma := 4%Z; pos_tag := 2%Z |}.

(** A window with a token in the middle slot only. *)
Definition middle_only : slots := (None, Some (sample_token 3 5), None).

(** ** The rest of [_data_structures.py] *)

(** [str(n)] for an integer: its decimal digits, after a minus sign when it
    is negative. *)
Fixpoint uint_str (d : Decimal.uint) : pystr :=
  match d with
  | Decimal.Nil => []
  | Decimal.D0 d' => 0x30 :: uint_str d'
  | Decimal.D1 d' => 0x31 :: uint_str d'
  | Decimal.D2 d' => 0x32 :: uint_str d'
  | Decimal.D3 d' => 0x33 :: uint_str d'
  | Decimal.D4 d' => 0x34 :: uint_str d'
  | Decimal.D5 d' => 0x35 :: uint_str d'
  | Decimal.D6 d' => 0x36 :: uint_str d'
  | Decimal.D7 d' => 0x37 :: uint_str d'
  | Decimal.D8 d' => 0x38 :: uint_str d'
  | Decimal.D9 d' => 0x39 :: uint_str d'
  end.

Definition int_str (n : Z) : pystr :=
  match Z.to_int n with
  | Decimal.Pos d => uint_str d
  | Decimal.Neg d => hyphen :: uint_str d
  end.

(** [str((a, b))] for a pair of integers. *)
Definition tuple_str (p : Z * Z) : pystr :=
  u "(" ++ int_str (fst p) ++ u ", " ++ int_str (snd p) ++ u ")".

(** [Token.__str__] *)
Definition Token_str (self : Token) : pystr :=
  u "'" ++ int_str (wordform self) ++ u "' (" ++ int_str (lemma self)
    ++ u ", " ++ int_str (pos_tag self) ++ u "), "
    ++ tuple_str (text_position self).

(** [Trigram.__getitem__], for an integer key. *)
Definition Trigram_getitem (self : Trigram) (key : Z) : result (option Token) :=
  tuple_getitem (trigram self) key.

(** What a [Trigram] gets compared with: another [Trigram], or one of the
    values above. *)
Inductive pyobj : Type :=
| ObjTrigram (T : Trigram)
| ObjVal (v : pyval).

(** [value == None] in [Trigram.__eq__].  On a [Trigram] this is its own
    [__eq__] with [None], whose first line answers [False]. *)
Definition obj_eq_None (value : pyobj) : bool :=
  match value with
  | ObjTrigram _ => false
  | ObjVal v => eq_None v
  end.

(** [self[i] == value[i]] *)
Definition slot_eq (self other : Trigram) (i : Z) : result bool :=
  a ← Trigram_getitem self i;
  b ← Trigram_getitem other i;
  py_eq (slot_val a) (slot_val b).

(** [Trigram.__eq__] *)
Definition Trigram_eq (self : Trigram) (value : pyobj) : result bool :=
  if obj_eq_None value then Ok false
  else match value with
       | ObjTrigram other =>
         b0 ← slot_eq self other 0;
         if (b0 : bool) then
           b1 ← slot_eq self other 1;
           if (b1 : bool) then
             b2 ← slot_eq self other 2;
             if (b2 : bool) then
               Ok (tuple_eqb (trigram_text_position self)
                             (trigram_text_position other))
             else Ok false
           else Ok false
         else Ok false
       | ObjVal _ => Err (TypeError "Compared value must be the same type.")
       end.

(** [n.upper()] on an integer: integers have no such method. *)
Definition int_upper (n : Z) : result pystr :=
  Err (AttributeError "'int' object has no attribute 'upper'").

(** [short_token_str], the helper of [Trigram.__str__].  A [Token] is
    truthy, [None] is not. *)
Definition short_token_str (token : option Token) : result pystr :=
  match token with
  | None => Ok (u "-")
  | Some t =>
    let shown_wordform := int_str (wordform t) in
    upper ← int_upper (pos_tag t);
    Ok (u "'" ++ shown_wordform ++ u "'(" ++ upper ++ u ")")
  end.

(** [Trigram.__str__] *)
Definition Trigram_str (self : Trigram) : result pystr :=
  t0 ← Trigram_getitem self 0;
  s0 ← short_token_str t0;
  t1 ← Trigram_getitem self 1;
  s1 ← short_token_str t1;
  t2 ← Trigram_getitem self 2;
  s2 ← short_token_str t2;
  Ok (u "[" ++ s0 ++ u ", " ++ s1 ++ u ", " ++ s2 ++ u "]"
        ++ tuple_str (trigram_text_position self)).




(** ** Notions for the further properties *)

(** A character that [str.lower] leaves as it is, whatever stands around
    it. *)
Definition lowered (c : codepoint) : bool :=
  (lower_lookup lower_table c =? c) && negb (c =? 0x130) && negb (c =? 0x3A3).

(** The code points an entry of the lower-case table maps. *)
Definition entry_sources (e : N * N * N * N) : list codepoint :=
  let '(lo, hi, stride, _) := e in
  map (fun k => lo + N.of_nat k * stride)
      (seq 0 (S (N.to_nat ((hi - lo) / stride)))).

(** Every character the table maps is mapped to a lower-case one. *)
Definition entry_lowered (e : N * N * N * N) : bool :=
  let '(lo, _, _, img) := e in
  forallb (fun c => lowered (img + (c - lo))) (entry_sources e).

(** The tags of [possible_pos_tags], listed. *)
Definition pos_tag_list : list pystr :=
  [u "ADJ"; u "ADP"; u "ADV"; u "AUX"; u "INTJ"; u "CCONJ"; u "NOUN";
   u "DET"; u "PROPN"; u "NUM"; u "VERB"; u "PART"; u "PRON"; u "SCONJ";
   u "SYM"; u "X"].

Definition not_space (c : codepoint) : bool := negb (char_isspace c).

(** A word as the analyzer gets it from a request. *)
Definition analyzable (word : pystr) : Prop :=
  is_a_word word = true /\ is_pos_tag word = false /\
  is_exact_form word = false /\ str_contains plus word = false /\
  forallb not_space word = true.

(** The number of [+] in a part. *)
Definition count_plus (part : pystr) : nat :=
  length (List.filter (N.eqb plus) part).

(** The characters of a printed integer: the minus sign and the digits. *)
Definition numeric (c : codepoint) : bool :=
  (c =? hyphen) || ((0x30 <=? c) && (c <=? 0x39)).

(** The slots of two windows agree one by one under [==]. *)
Definition slots_equal (s t : slots) : Prop :=
  let '(s0, s1, s2) := s in
  let '(t0, t1, t2) := t in
  py_eq (slot_val s0) (slot_val t0) = Ok true /\
  py_eq (slot_val s1) (slot_val t1) = Ok true /\
  py_eq (slot_val s2) (slot_val t2) = Ok true.

(** * Properties *)

(** ** The matcher decides the language of a pattern *)

Lemma re_nullable_spec r : re_nullable r = true <-> re_lang r [].
Proof.
  induction r; simpl.
  - split; [discriminate | inversion 1].
  - split; [constructor | reflexivity].
  - split; [discriminate | inversion 1].
  - rewrite andb_true_iff, IHr1, IHr2. split.
    + intros [H1 H2]. apply (lang_seq _ _ [] []); assumption.
    + intros H. inv H.
      match goal with E : _ ++ _ = [] |- _ => apply app_eq_nil in E as [-> ->] end.
      auto.
  - rewrite orb_true_iff, IHr1, IHr2. split.
    + intros [H|H]; [apply lang_alt_l | apply lang_alt_r]; assumption.
    + inversion 1; subst; auto.
  - split; [constructor | reflexivity].
Qed.

(** A non-empty match of [r*] starts with a non-empty match of [r]. *)
Lemma re_lang_star_cons_inv r s :
  re_lang (ReStar r) s ->
  forall c s', s = c :: s' ->
  exists s1 s2, s' = s1 ++ s2 /\ re_lang r (c :: s1) /\ re_lang (ReStar r) s2.
Proof.
  intros H. remember (ReStar r) as r' eqn:Hr.
  induction H as [ | | | | | r0 | r0 s1 s2 H1 _ H2 IH2 ]; try discriminate.
  injection Hr as ->. intros c s' Heq.
  destruct s1 as [|c1 s1]; simpl in Heq.
  - apply IH2; auto.
  - injection Heq as -> <-. exists s1, s2. auto.
Qed.

Lemma re_deriv_seq_intro c r1 r2 t :
  (forall s, re_lang (re_deriv c r1) s -> re_lang r1 (c :: s)) ->
  re_lang (ReSeq (re_deriv c r1) r2) t -> re_lang (ReSeq r1 r2) (c :: t).
Proof.
  intros IH H. inv H.
  match goal with
  | H1 : re_lang (re_deriv c r1) ?s1, H2 : re_lang r2 ?s2 |- _ =>
    apply (lang_seq _ _ (c :: s1) s2); [apply IH|]; assumption
  end.
Qed.

Lemma re_deriv_spec c r s : re_lang (re_deriv c r) s <-> re_lang r (c :: s).
Proof.
  revert s. induction r as [ | | cls | r1 IHr1 r2 IHr2 | r1 IHr1 r2 IHr2 | r IHr ];
    intros s; simpl.
  - split; intros H; inv H.
  - split; intros H; inv H.
  - destruct (cls c) eqn:Hc; split; intros H; inv H.
    + constructor. assumption.
    + constructor.
    + congruence.
  - split.
    + intros H.
      destruct (re_nullable r1) eqn:Hn.
      * inv H.
        -- eapply re_deriv_seq_intro; [apply IHr1 | assumption].
        -- apply (lang_seq _ _ [] (c :: s)); [|apply IHr2; assumption].
           apply re_nullable_spec. assumption.
      * eapply re_deriv_seq_intro; [apply IHr1 | assumption].
    + intros H. inv H.
      match goal with
      | E : ?s1 ++ ?s2 = c :: s, H1 : re_lang r1 ?s1, H2 : re_lang r2 ?s2 |- _ =>
        destruct s1 as [|c1 s1]; simpl in E;
          [ subst s2; apply re_nullable_spec in H1; rewrite H1;
            apply lang_alt_r, IHr2; assumption
          | injection E as -> <-;
            assert (re_lang (ReSeq (re_deriv c r1) r2) (s1 ++ s2))
              by (constructor; [apply IHr1|]; assumption);
            destruct (re_nullable r1); [apply lang_alt_l|]; assumption ]
      end.
  - split; intros H; inv H;
      solve [ apply lang_alt_l, IHr1; assumption
            | apply lang_alt_r, IHr2; assumption ].
  - split.
    + intros H. inv H.
      match goal with
      | H1 : re_lang (re_deriv c r) ?s1, H2 : re_lang (ReStar r) ?s2 |- _ =>
        apply (lang_star_cons _ (c :: s1) s2); [apply IHr|]; assumption
      end.
    + intros H.
      destruct (re_lang_star_cons_inv _ _ H c s eq_refl)
        as (s1 & s2 & -> & H1 & H2).
      constructor; [apply IHr|]; assumption.
Qed.

Lemma re_fullmatch_spec r s : re_fullmatch r s = true <-> re_lang r s.
Proof.
  revert r. induction s as [|c s IH]; intros r; simpl.
  - apply re_nullable_spec.
  - rewrite IH. apply re_deriv_spec.
Qed.

(** [re.match] finds a match that starts at the first character and ends
    anywhere. *)
Lemma re_match_spec r s :
  re_match r s = true <-> exists p t, s = p ++ t /\ re_lang r p.
Proof.
  revert r. induction s as [|c s IH]; intros r; simpl.
  - rewrite orb_false_r, re_nullable_spec. split.
    + intros H. exists [], []. auto.
    + intros (p & t & Heq & H). symmetry in Heq.
      apply app_eq_nil in Heq as [-> _]. assumption.
  - rewrite orb_true_iff, re_nullable_spec, IH. split.
    + intros [H|(p & t & -> & H)].
      * exists [], (c :: s). auto.
      * exists (c :: p), t. split; [reflexivity|]. apply re_deriv_spec, H.
    + intros (p & t & Heq & H). destruct p as [|c' p]; [auto|].
      injection Heq as <- ->. right. exists p, t.
      split; [reflexivity|]. apply re_deriv_spec, H.
Qed.

Lemma re_fullmatch_match r s : re_fullmatch r s = true -> re_match r s = true.
Proof.
  rewrite re_fullmatch_spec, re_match_spec. intros H.
  exists s, []. rewrite app_nil_r. auto.
Qed.

(** ** The languages of the parser's patterns *)

Lemma re_lang_class cls s :
  re_lang (ReClass cls) s <-> exists c, s = [c] /\ cls c = true.
Proof.
  split.
  - intros H. inv H. eauto.
  - intros (c & -> & H). constructor. assumption.
Qed.

Lemma re_lang_char c s : re_lang (ReChar c) s <-> s = [c].
Proof.
  unfold ReChar. rewrite re_lang_class. split.
  - intros (c' & -> & H). apply N.eqb_eq in H. congruence.
  - intros ->. exists c. split; [reflexivity | apply N.eqb_refl].
Qed.

Lemma re_lang_seq r1 r2 s :
  re_lang (ReSeq r1 r2) s <->
  exists s1 s2, s = s1 ++ s2 /\ re_lang r1 s1 /\ re_lang r2 s2.
Proof.
  split.
  - intros H. inv H. eauto.
  - intros (s1 & s2 & -> & H1 & H2). constructor; assumption.
Qed.

Lemma re_lang_alt r1 r2 s :
  re_lang (ReAlt r1 r2) s <-> re_lang r1 s \/ re_lang r2 s.
Proof.
  split.
  - intros H. inv H; auto.
  - intros [H|H]; [apply lang_alt_l | apply lang_alt_r]; assumption.
Qed.

Lemma re_lang_empty s : re_lang ReEmpty s <-> s = [].
Proof.
  split.
  - intros H. inv H. reflexivity.
  - intros ->. constructor.
Qed.

Lemma re_lang_star_class cls s :
  re_lang (ReStar (ReClass cls)) s <-> forallb cls s = true.
Proof.
  split.
  - intros H. remember (ReStar (ReClass cls)) as r eqn:Hr.
    induction H as [ | | | | | r0 | r0 s1 s2 H1 _ H2 IH2 ]; try discriminate.
    + reflexivity.
    + injection Hr as ->. inv H1. simpl.
      rewrite IH2 by reflexivity. rewrite andb_true_r. assumption.
  - induction s as [|c s IH]; simpl.
    + constructor.
    + rewrite andb_true_iff. intros [Hc Hs].
      apply (lang_star_cons _ [c] s); [constructor|]; auto.
Qed.

Lemma re_lang_plus_class cls s :
  re_lang (RePlus (ReClass cls)) s <->
  s <> [] /\ forallb cls s = true.
Proof.
  unfold RePlus. rewrite re_lang_seq. split.
  - intros (s1 & s2 & -> & H1 & H2).
    apply re_lang_class in H1 as (c & -> & Hc).
    apply re_lang_star_class in H2. simpl.
    rewrite H2, andb_true_r. split; [discriminate | assumption].
  - destruct s as [|c s]; [intros [[] _]; reflexivity|]. simpl.
    rewrite andb_true_iff. intros [_ [Hc Hs]].
    exists [c], s. split; [reflexivity|].
    split; [constructor | apply re_lang_star_class]; assumption.
Qed.

Lemma letter_run_spec s :
  letter_run s = true <-> s <> [] /\ forallb latin_cyrillic_class s = true.
Proof.
  destruct s; simpl.
  - split; [discriminate | intros [[] _]; reflexivity].
  - split; [intros H; split; [discriminate | assumption] | intros [_ H]; exact H].
Qed.

Lemma re_lang_word_pattern s : re_lang word_pattern s <-> word_form s.
Proof.
  unfold word_pattern, word_form, ReOpt.
  rewrite re_lang_seq. split.
  - intros (a & s2 & -> & Ha & H2).
    apply re_lang_seq in H2 as (h & b & -> & Hh & Hb).
    apply re_lang_plus_class, letter_run_spec in Ha, Hb.
    exists a, b. repeat split; try assumption.
    apply re_lang_alt in Hh as [Hh|Hh].
    + apply re_lang_char in Hh as ->. right. reflexivity.
    + apply re_lang_empty in Hh as ->. left. reflexivity.
  - intros (a & b & Ha & Hb & Hs).
    apply letter_run_spec, re_lang_plus_class in Ha, Hb.
    destruct Hs as [-> | ->].
    + exists a, b. repeat split; try assumption.
      apply re_lang_seq. exists [], b. repeat split; try assumption.
      apply lang_alt_r. constructor.
    + exists a, (hyphen :: b). repeat split; try assumption.
      apply re_lang_seq. exists [hyphen], b. repeat split; try assumption.
      apply lang_alt_l, re_lang_char. reflexivity.
Qed.

(** ** The classifier *)

Lemma is_quote_spec q : is_quote q = true <-> q = single_quote \/ q = double_quote.
Proof.
  unfold is_quote. rewrite orb_true_iff, !N.eqb_eq. reflexivity.
Qed.

Lemma re_lang_quoted q p :
  re_lang (ReSeq (ReChar q) (ReSeq (ReStar ReDot) (ReChar q))) p <->
  exists body, p = q :: body ++ [q] /\ forallb not_newline body = true.
Proof.
  rewrite re_lang_seq. split.
  - intros (s1 & s2 & -> & H1 & H2).
    apply re_lang_char in H1 as ->.
    apply re_lang_seq in H2 as (body & s3 & -> & Hb & H3).
    apply re_lang_char in H3 as ->.
    apply re_lang_star_class in Hb. eauto.
  - intros (body & -> & Hb).
    exists [q], (body ++ [q]). split; [reflexivity|].
    split; [apply re_lang_char; reflexivity|].
    apply re_lang_seq. exists body, [q]. split; [reflexivity|].
    split; [apply re_lang_star_class; assumption | apply re_lang_char; reflexivity].
Qed.

Lemma re_lang_exact_form_pattern p :
  re_lang exact_form_pattern p <->
  exists q body,
    is_quote q = true /\ p = q :: body ++ [q] /\
    forallb not_newline body = true.
Proof.
  unfold exact_form_pattern. rewrite re_lang_alt, !re_lang_quoted. split.
  - intros [(body & -> & Hb)|(body & -> & Hb)].
    + exists double_quote, body. auto.
    + exists single_quote, body. auto.
  - intros (q & body & Hq & -> & Hb).
    apply is_quote_spec in Hq as [-> | ->]; eauto.
Qed.

(** What [is_exact_form] accepts: a quote, text without a newline, the same
    quote, and then anything. *)
Lemma is_exact_form_spec s :
  is_exact_form s = true <->
  exists q body rest,
    is_quote q = true /\ s = q :: body ++ q :: rest /\
    forallb not_newline body = true.
Proof.
  unfold is_exact_form. rewrite re_match_spec. split.
  - intros (p & t & -> & Hp).
    apply re_lang_exact_form_pattern in Hp as (q & body & Hq & -> & Hb).
    exists q, body, t. repeat split; try assumption.
    simpl. rewrite <- app_assoc. reflexivity.
  - intros (q & body & rest & Hq & -> & Hb).
    exists (q :: body ++ [q]), rest. split.
    + simpl. rewrite <- app_assoc. reflexivity.
    + apply re_lang_exact_form_pattern. eauto.
Qed.

(** What [is_a_word] accepts: an alphabetic string, or anything that starts
    with a word form. *)
Lemma is_a_word_spec s :
  is_a_word s = true <->
  str_isalpha s = true \/ exists p t, s = p ++ t /\ word_form p.
Proof.
  unfold is_a_word. rewrite orb_true_iff, re_match_spec.
  split; (intros [H|(p & t & Heq & H)]; [left; assumption|right]);
    exists p, t; (split; [assumption|]); apply re_lang_word_pattern; assumption.
Qed.

Lemma re_fullmatch_quote_pattern c :
  re_fullmatch quote_pattern [c] = is_quote c.
Proof.
  unfold is_quote, quote_pattern, ReChar.
  cbn [re_fullmatch re_deriv].
  rewrite (N.eqb_sym c single_quote), (N.eqb_sym c double_quote).
  destruct (single_quote =? c), (double_quote =? c); reflexivity.
Qed.

Lemma re_sub_quote_pattern s :
  re_sub_chars quote_pattern [] s = remove_quotes s.
Proof.
  unfold re_sub_chars, remove_quotes.
  induction s as [|c s IH]; [reflexivity|].
  cbn [flat_map List.filter]. rewrite IH, re_fullmatch_quote_pattern.
  destruct (is_quote c); reflexivity.
Qed.

(** ** Splitting at a separator *)

Lemma str_split_on_absent sep s :
  str_contains sep s = false -> str_split_on sep s = [s].
Proof.
  unfold str_contains. induction s as [|c s IH]; simpl; [reflexivity|].
  rewrite orb_false_iff. intros [Hc Hs]. rewrite N.eqb_sym, Hc, IH by assumption.
  reflexivity.
Qed.

Lemma str_split_on_app sep a b :
  str_contains sep a = false ->
  str_split_on sep (a ++ sep :: b) = a :: str_split_on sep b.
Proof.
  unfold str_contains. induction a as [|c a IH]; simpl.
  - rewrite N.eqb_refl. reflexivity.
  - rewrite orb_false_iff. intros [Hc Ha].
    rewrite N.eqb_sym, Hc, IH by assumption. reflexivity.
Qed.

Lemma str_contains_app sep a b :
  str_contains sep (a ++ sep :: b) = true.
Proof.
  unfold str_contains. rewrite existsb_app. simpl.
  rewrite N.eqb_refl, orb_true_r. reflexivity.
Qed.

(** A string that holds the separator splits at its first occurrence. *)
Lemma str_contains_split sep s :
  str_contains sep s = true ->
  exists a b, s = a ++ sep :: b /\ str_contains sep a = false.
Proof.
  unfold str_contains. induction s as [|c s IH]; simpl; [discriminate|].
  destruct (N.eqb_spec sep c) as [->|Hne]; simpl.
  - intros _. exists [], s. auto.
  - intros H. destruct (IH H) as (a & b & -> & Ha).
    exists (c :: a), b. split; [reflexivity|]. simpl.
    destruct (N.eqb_spec sep c); [contradiction | assumption].
Qed.

Lemma str_split_on_length sep s : (1 <= length (str_split_on sep s))%nat.
Proof.
  induction s as [|c s IH]; simpl; [lia|].
  destruct (c =? sep); simpl; [lia|].
  destruct (str_split_on sep s); simpl in *; lia.
Qed.

(** ** Running computations *)

Section Parser.

Variable morph : pystr -> list Parse.

Lemma run_bind {A B} (p : prog A) (f : A -> prog B) :
  run morph (p ≫= f) =
  match run morph p with
  | (calls, Ok a) =>
    let '(calls', r) := run morph (f a) in (calls ++ calls', r)
  | (calls, Err e) => (calls, Err e)
  end.
Proof.
  unfold mbind, prog_mbind.
  induction p as [a|e|w k IH]; simpl.
  - destruct (run morph (f a)). reflexivity.
  - reflexivity.
  - rewrite IH. destruct (run morph (k (morph w))) as [calls [a|e]];
      [destruct (run morph (f a))|]; reflexivity.
Qed.

Lemma outcome_bind {A B} (p : prog A) (f : A -> prog B) :
  outcome morph (p ≫= f) =
  match outcome morph p with
  | Ok a => outcome morph (f a)
  | Err e => Err e
  end.
Proof.
  unfold outcome. rewrite run_bind.
  destruct (run morph p) as [calls [a|e]]; simpl; [|reflexivity].
  destruct (run morph (f a)). reflexivity.
Qed.

Lemma outcome_lift {A} (r : result A) : outcome morph (lift r) = r.
Proof. destruct r; reflexivity. Qed.

(** ** [parse_word] *)

(** A parsed word is a dict with one key. *)
Lemma parse_word_outcome word d :
  outcome morph (parse_word word) = Ok d ->
  d = {[ "pos" := VStr word ]} \/
  (exists v, d = {[ "word_form" := VStr v ]}) \/
  (exists l, d = {[ "lemma" := VList l ]}).
Proof.
  unfold parse_word.
  destruct (is_pos_tag word); [intros [= <-]; auto|].
  destruct (is_exact_form word); [intros [= <-]; eauto|].
  destruct (is_a_word word); [intros [= <-]; eauto|discriminate].
Qed.

Lemma parse_word_error word e :
  outcome morph (parse_word word) = Err e -> e = UnrecognizedTokenError word.
Proof.
  unfold parse_word.
  destruct (is_pos_tag word); [discriminate|].
  destruct (is_exact_form word); [discriminate|].
  destruct (is_a_word word); [discriminate|]. intros [= <-]. reflexivity.
Qed.

(** A word that the guard of a combination lets through parses. *)
Lemma parse_word_accepts word :
  is_a_word word || is_exact_form word = true ->
  exists d, outcome morph (parse_word word) = Ok d.
Proof.
  unfold parse_word. intros H.
  destruct (is_pos_tag word); [eauto|].
  destruct (is_exact_form word); [eauto|].
  rewrite orb_false_r in H. rewrite H. eauto.
Qed.

(** ** [parse_single_part] *)

Lemma dict_update_empty (d : gmap string reqval) : dict_update ∅ d = d.
Proof. unfold dict_update. apply (right_id_L ∅ (∪)). Qed.

Lemma parse_single_part_plain part :
  str_contains plus part = false ->
  outcome morph (parse_single_part part) = outcome morph (parse_word part).
Proof.
  intros H. unfold parse_single_part. rewrite H, outcome_bind.
  destruct (outcome morph (parse_word part)); [|reflexivity].
  unfold outcome. simpl. rewrite dict_update_empty. reflexivity.
Qed.

(** A part with one [+]: the guard, then the tag and the parsed word. *)
Lemma parse_single_part_combined a b :
  str_contains plus a = false -> str_contains plus b = false ->
  outcome morph (parse_single_part (a ++ plus :: b)) =
  if (is_a_word a || is_exact_form a) && is_pos_tag b then
    match outcome morph (parse_word a) with
    | Ok d => Ok (dict_update {[ "pos" := VStr b ]} d)
    | Err e => Err e
    end
  else Err InvalidCombinationError.
Proof.
  intros Ha Hb. unfold parse_single_part.
  rewrite str_contains_app, str_split_on_app, str_split_on_absent by assumption.
  simpl. destruct ((is_a_word a || is_exact_form a) && is_pos_tag b); simpl.
  - rewrite outcome_bind.
    destruct (outcome morph (parse_word a)); [|reflexivity].
    unfold outcome. simpl. rewrite insert_empty. reflexivity.
  - reflexivity.
Qed.

Lemma parse_single_part_too_many a b :
  str_contains plus a = false -> str_contains plus b = true ->
  outcome morph (parse_single_part (a ++ plus :: b)) = Err TooManyOperatorsError.
Proof.
  intros Ha Hb. unfold parse_single_part.
  rewrite str_contains_app, str_split_on_app by assumption.
  apply str_contains_split in Hb as (b1 & b2 & -> & Hb1).
  rewrite str_split_on_app by assumption. simpl.
  pose proof (str_split_on_length plus b2).
  destruct (str_split_on plus b2); simpl in *; [lia|reflexivity].
Qed.

(** The three ways a part is read. *)
Lemma parse_single_part_cases part :
  (str_contains plus part = false /\
   outcome morph (parse_single_part part) = outcome morph (parse_word part)) \/
  (exists a b,
     part = a ++ plus :: b /\
     str_contains plus a = false /\ str_contains plus b = false /\
     outcome morph (parse_single_part part) =
     if (is_a_word a || is_exact_form a) && is_pos_tag b then
       match outcome morph (parse_word a) with
       | Ok d => Ok (dict_update {[ "pos" := VStr b ]} d)
       | Err e => Err e
       end
     else Err InvalidCombinationError) \/
  outcome morph (parse_single_part part) = Err TooManyOperatorsError.
Proof.
  destruct (str_contains plus part) eqn:Hp.
  - apply str_contains_split in Hp as (a & b & -> & Ha).
    destruct (str_contains plus b) eqn:Hb.
    + right. right. apply parse_single_part_too_many; assumption.
    + right. left. exists a, b. repeat split; try assumption.
      apply parse_single_part_combined; assumption.
  - left. split; [reflexivity|]. apply parse_single_part_plain. assumption.
Qed.

Lemma parse_single_part_error part e :
  outcome morph (parse_single_part part) = Err e ->
  (exists word, e = UnrecognizedTokenError word) \/
  e = InvalidCombinationError \/ e = TooManyOperatorsError.
Proof.
  destruct (parse_single_part_cases part)
    as [[_ ->]|[(a & b & _ & _ & _ & ->)| ->]].
  - intros H. apply parse_word_error in H. eauto.
  - destruct ((is_a_word a || is_exact_form a) && is_pos_tag b).
    + destruct (outcome morph (parse_word a)) eqn:Hw; [discriminate|].
      intros [= <-]. apply parse_word_error in Hw. eauto.
    + intros [= <-]. auto.
  - intros [= <-]. auto.
Qed.

End Parser.
(** ** The two scans of [Trigram.__init__] *)

Lemma first_not_none_loop_step t i :
  first_not_none_loop t i =
  match test_None t i with
  | Continue => first_not_none_loop t (i + 1)
  | Break => Ok i
  | Fail e => Err e
  end.
Proof.
  rewrite first_not_none_loop_equation_1. unfold inspect.
  assert (Hgen : forall (x : loop_test) (H : test_None t i = x),
             first_not_none_loop_unfold_clause_1 t i (exist _ x H) =
             match x with
             | Continue => first_not_none_loop t (i + 1)
             | Break => Ok i
             | Fail e => Err e
             end)
    by (intros [| |e] H; reflexivity).
  apply Hgen.
Qed.

Lemma last_not_none_loop_step t i :
  last_not_none_loop t i =
  match test_None t i with
  | Continue => last_not_none_loop t (i - 1)
  | Break => Ok i
  | Fail e => Err e
  end.
Proof.
  rewrite last_not_none_loop_equation_1. unfold inspect.
  assert (Hgen : forall (x : loop_test) (H : test_None t i = x),
             last_not_none_loop_unfold_clause_1 t i (exist _ x H) =
             match x with
             | Continue => last_not_none_loop t (i - 1)
             | Break => Ok i
             | Fail e => Err e
             end)
    by (intros [| |e] H; reflexivity).
  apply Hgen.
Qed.

(** Unfolds the scans as far as the slots are known. *)
Ltac scan :=
  repeat (rewrite first_not_none_loop_step; simpl);
  repeat (rewrite last_not_none_loop_step; simpl).

Lemma py_eq_slot_None (slot : option Token) :
  py_eq (slot_val slot) PyNone = Ok (bool_decide (slot = None)).
Proof. destruct slot; reflexivity. Qed.

(** The chained comparison is true on three [None]s only. *)
Lemma all_None_spec t0 t1 t2 :
  all_None (t0, t1, t2) =
  Ok (bool_decide (t0 = None /\ t1 = None /\ t2 = None)).
Proof.
  destruct t0 as [a|], t1 as [b|], t2 as [c|]; simpl;
    repeat match goal with
           | |- context [if ?b then _ else _] => destruct b; simpl
           end;
    try reflexivity.
Qed.

Lemma Trigram_init_present (t : slots) a b :
  first_present t = Some a -> last_present t = Some b ->
  Trigram_init t =
  Ok {| trigram := t;
        trigram_text_position := (fst (text_position a), snd (text_position b)) |}.
Proof.
  destruct t as [[[x|] [y|]] [z|]]; simpl; intros [= <-] [= <-];
    unfold Trigram_init; rewrite all_None_spec;
    (rewrite bool_decide_eq_false_2 by (intros (? & ? & ?); discriminate));
    cbn [mbind result_mbind result_bind]; scan; reflexivity.
Qed.

(** ** [request_to_trigram] *)

Lemma dict_set_fresh {V} (d : list (Z * V)) k v :
  Forall (fun kv => fst kv <> k) d -> dict_set d k v = d ++ [(k, v)].
Proof.
  induction 1 as [|[k' v'] d Hk _ IH]; simpl; [reflexivity|].
  simpl in Hk. destruct (Z.eqb_spec k' k); [contradiction|].
  rewrite IH. reflexivity.
Qed.

Lemma positions_S n :
  positions (S n) = 1%Z :: map (fun k => (k + 1)%Z) (positions n).
Proof.
  unfold positions. simpl. f_equal.
  rewrite <- seq_shift, !map_map. apply map_ext. intros j. lia.
Qed.

Section Request.

Variable morph : pystr -> list Parse.

Lemma parse_segments_Forall2 segments reqs :
  parse_segments morph segments = Ok reqs <->
  Forall2 (fun seg r => outcome morph (parse_single_part seg) = Ok r)
          segments reqs.
Proof.
  split.
  - revert reqs. induction segments as [|seg rest IH]; intros reqs; simpl.
    + intros [= <-]. constructor.
    + destruct (outcome morph (parse_single_part seg)) as [r|e] eqn:Hr;
        [|discriminate].
      destruct (parse_segments morph rest) as [rs|e]; [|discriminate].
      intros [= <-]. constructor; [assumption | apply IH; reflexivity].
  - induction 1 as [|seg r rest rs Hr _ IH]; simpl; [reflexivity|].
    rewrite Hr, IH. reflexivity.
Qed.

Lemma parse_segments_length segments reqs :
  parse_segments morph segments = Ok reqs -> length reqs = length segments.
Proof.
  rewrite parse_segments_Forall2. intros H.
  symmetry. eapply Forall2_length, H.
Qed.

(** An error of the loop is the error of a segment, never the length
    error. *)
Lemma parse_segments_error segments e :
  parse_segments morph segments = Err e -> e <> InvalidLengthError.
Proof.
  induction segments as [|seg rest IH]; simpl; [discriminate|].
  destruct (outcome morph (parse_single_part seg)) as [r|e'] eqn:Hr.
  - destruct (parse_segments morph rest); [discriminate|].
    intros [= <-]. apply IH. reflexivity.
  - intros [= <-]. apply parse_single_part_error in Hr
      as [[word ->]|[-> | ->]]; discriminate.
Qed.

Lemma request_loop_outcome segments :
  forall i acc,
    Forall (fun kv => (fst kv <= i)%Z) acc ->
    outcome morph (request_loop i segments acc) =
    match parse_segments morph segments with
    | Ok reqs =>
      Ok (acc ++ zip (map (fun k => (i + k)%Z) (positions (length segments))) reqs)
    | Err e => Err e
    end.
Proof.
  induction segments as [|seg rest IH]; intros i acc Hacc.
  - simpl. rewrite app_nil_r. reflexivity.
  - cbn [request_loop parse_segments]. rewrite outcome_bind.
    destruct (outcome morph (parse_single_part seg)) as [r|e]; [|reflexivity].
    rewrite dict_set_fresh
      by (eapply Forall_impl; [exact Hacc | simpl; intros; lia]).
    rewrite IH.
    + destruct (parse_segments morph rest) as [rs|e]; [|reflexivity].
      cbn [length]. rewrite positions_S. cbn [map zip zip_with].
      rewrite <- app_assoc. cbn [app]. rewrite map_map.
      rewrite (map_ext (fun x => (i + (x + 1))%Z) (fun k => (i + 1 + k)%Z))
        by (intros; lia).
      reflexivity.
    + apply Forall_app. split.
      * eapply Forall_impl; [exact Hacc | simpl; intros; lia].
      * repeat constructor. simpl. lia.
Qed.

Lemma request_to_trigram_outcome request :
  outcome morph (request_to_trigram request) =
  let segments := str_split (str_strip request) in
  if ((3 <? length segments) || (length segments <? 1))%nat
  then Err InvalidLengthError
  else match parse_segments morph segments with
       | Ok reqs => Ok (zip (positions (length segments)) reqs)
       | Err e => Err e
       end.
Proof.
  unfold request_to_trigram. cbv zeta.
  destruct ((3 <? _) || _)%nat; [reflexivity|].
  rewrite request_loop_outcome by constructor.
  destruct (parse_segments morph _); [|reflexivity].
  simpl. do 2 f_equal. rewrite <- (map_id (positions _)) at 2.
  apply map_ext. intros k. lia.
Qed.

End Request.

(** ** Quoted strings *)

Lemma wrapped_in_spec q s :
  wrapped_in q s = true <-> exists body, s = q :: body ++ [q].
Proof.
  unfold wrapped_in. destruct s as [|c rest].
  - split; [discriminate | intros (body & H); discriminate].
  - rewrite andb_true_iff, N.eqb_eq. split.
    + intros [-> H]. destruct (last rest) as [c'|] eqn:Hl; [|discriminate].
      apply N.eqb_eq in H as ->. apply last_Some in Hl as (body & ->). eauto.
    + intros (body & [= -> ->]). split; [reflexivity|].
      rewrite last_snoc. apply N.eqb_refl.
Qed.

Lemma fully_quoted_spec s :
  fully_quoted s = true <->
  exists q body, is_quote q = true /\ s = q :: body ++ [q].
Proof.
  unfold fully_quoted. rewrite orb_true_iff, !wrapped_in_spec. split.
  - intros [(body & ->)|(body & ->)];
      [exists single_quote, body | exists double_quote, body]; auto.
  - intros (q & body & Hq & ->).
    apply is_quote_spec in Hq as [-> | ->]; eauto.
Qed.

(** A quoted string of one line is an exact form. *)
Lemma fully_quoted_is_exact_form s :
  fully_quoted s = true -> forallb not_newline s = true ->
  is_exact_form s = true.
Proof.
  rewrite fully_quoted_spec. intros (q & body & Hq & ->) Hs.
  apply is_exact_form_spec. exists q, body, []. repeat split; try assumption.
  simpl in Hs. rewrite forallb_app in Hs.
  apply andb_true_iff in Hs as [_ Hs]. apply andb_true_iff in Hs as [Hs _].
  exact Hs.
Qed.

Lemma remove_quotes_enclosed s :
  fully_quoted s = true ->
  remove_quotes (strip_enclosing s) = strip_enclosing s ->
  remove_quotes s = strip_enclosing s.
Proof.
  rewrite fully_quoted_spec. intros (q & body & Hq & ->).
  unfold strip_enclosing. rewrite removelast_last. intros Hbody.
  unfold remove_quotes in *. simpl. rewrite Hq. simpl.
  rewrite List.filter_app. simpl. rewrite Hq. simpl.
  rewrite app_nil_r. exact Hbody.
Qed.

Lemma lower_char_quote before q after :
  is_quote q = true -> lower_char before q after = [q].
Proof.
  intros Hq. apply is_quote_spec in Hq as [-> | ->]; reflexivity.
Qed.

Lemma lower_from_snoc_quote q s :
  is_quote q = true ->
  forall before, exists body, lower_from before (s ++ [q]) = body ++ [q].
Proof.
  intros Hq. induction s as [|c s IH]; intros before; simpl.
  - exists []. rewrite lower_char_quote by assumption. reflexivity.
  - destruct (IH (c :: before)) as [body ->].
    exists (lower_char before c (s ++ [q]) ++ body).
    rewrite app_assoc. reflexivity.
Qed.

(** Lower-casing keeps a string in its quotes. *)
Lemma str_lower_fully_quoted s :
  fully_quoted s = true -> fully_quoted (str_lower s) = true.
Proof.
  rewrite !fully_quoted_spec. intros (q & body & Hq & ->).
  unfold str_lower. simpl. rewrite lower_char_quote by assumption.
  destruct (lower_from_snoc_quote q body Hq [q]) as [body' ->].
  exists q, body'. auto.
Qed.

(** ** The classifier: C1 and C2 *)

(** C1 (found to fail).  The claim: [is_exact_form s] holds exactly when [s]
    is wrapped whole in a pair of single or of double quotes, nothing before
    the opening quote and nothing after the closing one.  The code matches
    its pattern at the start of the string only: on ['a'b] it answers true,
    though text follows the closing quote and the string is not wrapped. *)
Theorem is_exact_form_trailing_text :
  is_exact_form (u "'a'b") = true /\ fully_quoted (u "'a'b") = false.
Proof. split; vm_compute; reflexivity. Qed.

(** The letters of the pattern are alphabetic, so the two tests overlap. *)
Lemma is_a_word_prefix_only :
  is_a_word (u "ab1") = true /\ spec_is_word (u "ab1") = false /\
  is_a_word (u "a-b-c") = true /\ spec_is_word (u "a-b-c") = false.
Proof. repeat split; vm_compute; reflexivity. Qed.


(** A hyphenated word with a letter outside a-z, A-Z, а-я, А-Я, here ё, is a
    word as the specification words it and is no word for the code: the set
    of the pattern leaves the letter out. *)
Lemma is_a_word_letter_outside_set :
  is_a_word (u "её-то") = false /\ spec_is_word (u "её-то") = true /\
  str_isalpha (u "её") = true /\ latin_cyrillic_class 0x451 = false.
Proof. repeat split; vm_compute; reflexivity. Qed.







Section Claims.

Variable morph : pystr -> list Parse.

(** ** [parse_word]: C3 and C4 *)

(** C3 (amended).  For a word that is not a POS tag and is an exact form,
    [parse_word] calls no analyzer and returns [{word_form: v}] where [v] is
    the lower-cased word without any of its quote characters; when the word
    is wrapped in quotes and the lower-cased text between them holds no
    quote, [v] is the lower-cased word without the enclosing pair. *)
Theorem parse_word_exact_form_amended (word : pystr) :
  is_pos_tag word = false -> is_exact_form word = true ->
  run morph (parse_word word) =
    ([], Ok {[ "word_form" := VStr (remove_quotes (str_lower word)) ]}) /\
  (fully_quoted word = true ->
   remove_quotes (strip_enclosing (str_lower word))
     = strip_enclosing (str_lower word) ->
   remove_quotes (str_lower word) = strip_enclosing (str_lower word)).
Proof.
  intros Hpos Hexact. split.
  - unfold parse_word. rewrite Hpos, Hexact, re_sub_quote_pattern. reflexivity.
  - intros Hq. apply remove_quotes_enclosed, str_lower_fully_quoted, Hq.
Qed.

(** C4 (amended).  For a word that is neither a POS tag nor an exact form
    and is a word, [parse_word] calls the analyzer once, on the word as it
    was given, and returns [{lemma: L}] where [L] holds exactly the
    lower-cased normal forms of the parses, each once. *)
Theorem parse_word_lemma_amended (word : pystr) :
  is_pos_tag word = false -> is_exact_form word = false ->
  is_a_word word = true ->
  exists L : gset pystr,
    run morph (parse_word word) = ([word], Ok {[ "lemma" := VList L ]}) /\
    forall x, x ∈ L <->
              exists p, p ∈ morph word /\ x = str_lower (normal_form p).
Proof.
  intros Hpos Hexact Hword.
  exists (list_to_set (map (fun p => str_lower (normal_form p)) (morph word))).
  split.
  - unfold parse_word. rewrite Hpos, Hexact, Hword. reflexivity.
  - intros x. rewrite elem_of_list_to_set, list_elem_of_In, in_map_iff.
    split; intros (p & H1 & H2).
    + exists p. rewrite list_elem_of_In. auto.
    + exists p. rewrite <- list_elem_of_In. auto.
Qed.

End Claims.

(** C3, the claim as stated fails: a quote inside the quoted text is
    removed with the enclosing pair. *)
Lemma parse_word_interior_quote :
  is_pos_tag (double_quote :: u "a'b" ++ [double_quote]) = false /\
  is_exact_form (double_quote :: u "a'b" ++ [double_quote]) = true /\
  strip_enclosing (str_lower (double_quote :: u "a'b" ++ [double_quote]))
    = u "a'b" /\
  outcome echo_morph (parse_word (double_quote :: u "a'b" ++ [double_quote]))
    = Ok {[ "word_form" := VStr (u "ab") ]} /\
  u "ab" <> u "a'b".
Proof. repeat split; try (vm_compute; reflexivity). vm_compute. discriminate. Qed.

Lemma parse_word_exact_form_witness :
  run echo_morph (parse_word (u "'Table'")) =
    ([], Ok {[ "word_form" := VStr (u "table") ]}).
Proof.
  apply (parse_word_exact_form_amended echo_morph (u "'Table'"));
    vm_compute; reflexivity.
Defined.

(** C4, the claim as stated fails: the analyzer is handed the word in the
    case it was typed in, not its lower-cased form. *)
Lemma parse_word_analyzer_argument :
  is_pos_tag (u "Run") = false /\ is_exact_form (u "Run") = false /\
  is_a_word (u "Run") = true /\
  morph_calls echo_morph (parse_word (u "Run")) = [u "Run"] /\
  [u "Run"] <> [str_lower (u "Run")].
Proof. repeat split; try (vm_compute; reflexivity). vm_compute. discriminate. Qed.

Lemma parse_word_lemma_witness :
  exists L : gset pystr,
    run echo_morph (parse_word (u "Run")) =
      ([u "Run"], Ok {[ "lemma" := VList L ]}) /\
    forall x, x ∈ L <->
              exists p, p ∈ echo_morph (u "Run") /\ x = str_lower (normal_form p).
Proof.
  apply (parse_word_lemma_amended echo_morph (u "Run")); vm_compute; reflexivity.
Defined.

Section Combination.

Variable morph : pystr -> list Parse.

(** ** [parse_single_part]: C5 and C10 *)

Lemma parse_word_no_pos word d :
  is_pos_tag word = false -> outcome morph (parse_word word) = Ok d ->
  d !! "pos" = None.
Proof.
  unfold parse_word. intros ->.
  destruct (is_exact_form word); [intros [= <-]; reflexivity|].
  destruct (is_a_word word); [intros [= <-]; reflexivity|discriminate].
Qed.

(** When the word of a combination is not itself a POS tag, the part parses
    to the parsed word with the tag added under [pos]. *)
Lemma parse_single_part_tagged a b :
  str_contains plus a = false -> str_contains plus b = false ->
  (is_a_word a || is_exact_form a) && is_pos_tag b = true ->
  is_pos_tag a = false ->
  exists d,
    outcome morph (parse_word a) = Ok d /\
    outcome morph (parse_single_part (a ++ plus :: b))
      = Ok (<[ "pos" := VStr b ]> d) /\
    (<[ "pos" := VStr b ]> d : gmap string reqval) !! "pos" = Some (VStr b).
Proof.
  intros Ha Hb Hguard Hpos.
  rewrite parse_single_part_combined, Hguard by assumption.
  apply andb_true_iff in Hguard as [Hword _].
  destruct (parse_word_accepts morph a Hword) as [d Hd].
  exists d. rewrite Hd. split; [reflexivity|].
  split; [|apply lookup_insert_eq].
  f_equal. unfold dict_update. symmetry.
  apply insert_union_singleton_r. eapply parse_word_no_pos; eassumption.
Qed.

(** C5 (found to fail).  The claim: for a part [a+b] with one [+], when [a]
    is a word or an exact form and [b] is a POS tag, [parse_single_part]
    returns [{pos: b}] united with [parse_word a], the [pos] of the result
    being [b]; otherwise it fails with InvalidCombinationError.  On
    [NOUN+VERB] the guard passes, [parse_word] reads [NOUN] as a tag, and
    its [pos] replaces the one just stored: the result is [{pos: NOUN}]. *)
Theorem parse_single_part_tag_as_word :
  str_split_on plus (u "NOUN+VERB") = [u "NOUN"; u "VERB"] /\
  (is_a_word (u "NOUN") || is_exact_form (u "NOUN")) && is_pos_tag (u "VERB")
    = true /\
  run morph (parse_single_part (u "NOUN+VERB"))
    = ([], Ok {[ "pos" := VStr (u "NOUN") ]}) /\
  VStr (u "NOUN") <> VStr (u "VERB").
Proof.
  repeat split; try (vm_compute; reflexivity). vm_compute. discriminate.
Qed.

(** A combination that the guard refuses. *)
Lemma parse_single_part_refused a b :
  str_contains plus a = false -> str_contains plus b = false ->
  (is_a_word a || is_exact_form a) && is_pos_tag b = false ->
  outcome morph (parse_single_part (a ++ plus :: b)) = Err InvalidCombinationError.
Proof.
  intros Ha Hb Hguard.
  rewrite parse_single_part_combined, Hguard by assumption. reflexivity.
Qed.

Lemma well_formed_singleton (k : string) (v : reqval) :
  k ∈ requirement_keys ->
  well_formed_requirement {[ k := v ]}.
Proof.
  intros Hk. unfold well_formed_requirement. rewrite dom_singleton_L. split.
  - apply singleton_subseteq_l. exact Hk.
  - rewrite !elem_of_singleton. intros [<- H]. discriminate H.
Qed.

Lemma well_formed_parse_word word d :
  outcome morph (parse_word word) = Ok d -> well_formed_requirement d.
Proof.
  intros H.
  apply parse_word_outcome in H as [->|[[v ->]|[l ->]]];
    apply well_formed_singleton; unfold requirement_keys;
    rewrite !elem_of_union, !elem_of_singleton; auto.
Qed.

Lemma well_formed_tagged d b :
  well_formed_requirement d ->
  well_formed_requirement (dict_update {[ "pos" := VStr b ]} d).
Proof.
  unfold well_formed_requirement, dict_update.
  rewrite dom_union_L, dom_singleton_L. intros [Hsub Hnot]. split.
  - apply union_subseteq. split; [exact Hsub|].
    apply singleton_subseteq_l. unfold requirement_keys.
    rewrite !elem_of_union, !elem_of_singleton. auto.
  - rewrite !elem_of_union, !elem_of_singleton.
    intros [[H1|H1] [H2|H2]]; try discriminate. auto.
Qed.

Lemma well_formed_parse_single_part part r :
  outcome morph (parse_single_part part) = Ok r -> well_formed_requirement r.
Proof.
  destruct (parse_single_part_cases morph part)
    as [[_ ->]|[(a & b & _ & _ & _ & ->)| ->]].
  - apply well_formed_parse_word.
  - destruct ((is_a_word a || is_exact_form a) && is_pos_tag b); [|discriminate].
    destruct (outcome morph (parse_word a)) as [d|] eqn:Hd; [|discriminate].
    intros [= <-]. apply well_formed_tagged.
    eapply well_formed_parse_word. eassumption.
  - discriminate.
Qed.

(** C10.  A requirement returned by [parse_single_part], and so every value
    of the map returned by [request_to_trigram], has its keys among [pos],
    [lemma] and [word_form], and never holds [lemma] and [word_form]
    together. *)
Theorem requirement_well_formed :
  (forall part r,
     outcome morph (parse_single_part part) = Ok r ->
     well_formed_requirement r) /\
  (forall request m k r,
     outcome morph (request_to_trigram request) = Ok m ->
     (k, r) ∈ m -> well_formed_requirement r).
Proof.
  split; [apply well_formed_parse_single_part|].
  intros request m k r. rewrite request_to_trigram_outcome. cbv zeta.
  destruct ((3 <? _) || _)%nat; [discriminate|].
  destruct (parse_segments morph _) as [reqs|] eqn:Hreqs; [|discriminate].
  intros [= <-] Hin. apply elem_of_zip_r in Hin.
  apply parse_segments_Forall2 in Hreqs.
  revert Hin. clear -Hreqs.
  induction Hreqs as [|seg r' segs reqs Hr _ IH]; intros Hin.
  - inv Hin.
  - apply elem_of_cons in Hin as [->|Hin]; [|auto].
    eapply well_formed_parse_single_part. eassumption.
Qed.

(** ** [request_to_trigram]: C6 *)

Lemma parse_segments_first_error pre seg post e :
  Forall (fun s => exists r, outcome morph (parse_single_part s) = Ok r) pre ->
  outcome morph (parse_single_part seg) = Err e ->
  parse_segments morph (pre ++ seg :: post) = Err e.
Proof.
  induction 1 as [|s pre [r Hr] _ IH]; intros He; simpl.
  - rewrite He. reflexivity.
  - rewrite Hr, IH by assumption. reflexivity.
Qed.

(** C6 (amended).  [request_to_trigram] fails with InvalidLengthError if and
    only if the trimmed request splits at whitespace into no segment or into
    more than three.  With one to three segments: when [parse_single_part]
    succeeds on every segment, the result is the map with the keys [1..n] in
    order, position [i] holding the requirement of the [i]-th segment; when
    it fails on some segment, the failure of the first such segment is the
    outcome. *)
Theorem request_to_trigram_amended (request : pystr) :
  (outcome morph (request_to_trigram request) = Err InvalidLengthError <->
   length (str_split (str_strip request)) = 0%nat \/
   (3 < length (str_split (str_strip request)))%nat) /\
  (forall reqs,
     (1 <= length (str_split (str_strip request)) <= 3)%nat ->
     Forall2 (fun seg r => outcome morph (parse_single_part seg) = Ok r)
             (str_split (str_strip request)) reqs ->
     outcome morph (request_to_trigram request)
       = Ok (zip (positions (length reqs)) reqs)) /\
  (forall pre seg post e,
     (1 <= length (str_split (str_strip request)) <= 3)%nat ->
     str_split (str_strip request) = pre ++ seg :: post ->
     Forall (fun s => exists r, outcome morph (parse_single_part s) = Ok r) pre ->
     outcome morph (parse_single_part seg) = Err e ->
     outcome morph (request_to_trigram request) = Err e).
Proof.
  rewrite request_to_trigram_outcome. cbv zeta.
  set (segments := str_split (str_strip request)).
  destruct ((3 <? length segments) || (length segments <? 1))%nat eqn:Hlen.
  - apply orb_true_iff in Hlen.
    rewrite Nat.ltb_lt, Nat.ltb_lt in Hlen.
    split; [split; [lia | reflexivity]|]. split; intros; lia.
  - apply orb_false_iff in Hlen.
    rewrite Nat.ltb_ge, Nat.ltb_ge in Hlen. split; [|split].
    + split; [|lia]. destruct (parse_segments morph segments) eqn:Hs;
        [discriminate|].
      intros [= ->]. apply parse_segments_error in Hs. contradiction.
    + intros reqs _ Hall. rewrite (Forall2_length _ _ _ Hall).
      apply parse_segments_Forall2 in Hall. rewrite Hall. reflexivity.
    + intros pre seg post e _ Hsplit Hpre He.
      rewrite Hsplit, (parse_segments_first_error _ _ _ _ Hpre He).
      reflexivity.
Qed.

End Combination.

(** C6, the claim as stated fails: a request of one segment that
    [parse_single_part] refuses returns no map. *)
Lemma request_to_trigram_bad_segment :
  length (str_split (str_strip (u "!"))) = 1%nat /\
  outcome echo_morph (request_to_trigram (u "!"))
    = Err (UnrecognizedTokenError (u "!")).
Proof. split; vm_compute; reflexivity. Qed.

Lemma request_to_trigram_witness :
  outcome echo_morph (request_to_trigram (u " 'Table'+NOUN  run "))
    = Ok [ (1%Z, {[ "pos" := VStr (u "NOUN"); "word_form" := VStr (u "table") ]});
           (2%Z, {[ "lemma" := VList {[ u "run" ]} ]}) ].
Proof.
  apply (proj1 (proj2 (request_to_trigram_amended echo_morph
                         (u " 'Table'+NOUN  run ")))
           [ {[ "pos" := VStr (u "NOUN"); "word_form" := VStr (u "table") ]};
             {[ "lemma" := VList {[ u "run" ]} ]} ]).
  - vm_compute. lia.
  - repeat constructor; vm_compute; reflexivity.
Defined.

Lemma requirement_well_formed_witness :
  well_formed_requirement
    {[ "pos" := VStr (u "NOUN"); "word_form" := VStr (u "table") ]}.
Proof.
  apply (proj1 (requirement_well_formed echo_morph) (u "'Table'+NOUN")).
  vm_compute. reflexivity.
Defined.

(** ** [Token] and [Trigram]: C7, C8 and C9 *)

Lemma first_present_None t : first_present t = None <-> all_absent t.
Proof.
  unfold all_absent. destruct t as [[[a|] [b|]] [c|]]; simpl;
    split; congruence.
Qed.

Lemma last_present_None t : last_present t = None <-> all_absent t.
Proof.
  unfold all_absent. destruct t as [[[a|] [b|]] [c|]]; simpl;
    split; congruence.
Qed.

Lemma Trigram_init_all_absent :
  Trigram_init (None, None, None) = Err InvalidTrigramError.
Proof. reflexivity. Qed.

(** C7.  Constructing a [Trigram] from three optional tokens fails with
    InvalidTrigramError if and only if all three slots are absent, and
    succeeds if and only if some slot is present. *)
Theorem Trigram_init_fails_iff_all_absent (t0 t1 t2 : option Token) :
  (Trigram_init (t0, t1, t2) = Err InvalidTrigramError <->
   t0 = None /\ t1 = None /\ t2 = None) /\
  ((exists T, Trigram_init (t0, t1, t2) = Ok T) <->
   ~ (t0 = None /\ t1 = None /\ t2 = None)).
Proof.
  destruct (first_present (t0, t1, t2)) as [a|] eqn:Ha.
  - destruct (last_present (t0, t1, t2)) as [b|] eqn:Hb.
    + rewrite (Trigram_init_present _ _ _ Ha Hb).
      assert (Hsome : ~ (t0 = None /\ t1 = None /\ t2 = None)).
      { intros (-> & -> & ->). discriminate. }
      split; split.
      * discriminate.
      * tauto.
      * intros _. exact Hsome.
      * eauto.
    + apply last_present_None in Hb. rewrite Hb in Ha. discriminate.
  - apply first_present_None in Ha. injection Ha as -> -> ->.
    rewrite Trigram_init_all_absent. split; split.
    + auto.
    + reflexivity.
    + intros [T H]. discriminate.
    + intros H. exfalso. apply H. auto.
Qed.

(** C8.  A [Trigram] built from slots that are not all absent spans from the
    start of the first present slot, slots read 0 to 2, to the end of the
    last present slot, slots read 2 to 0; with the middle slot alone present
    the span is that slot's span. *)
Theorem Trigram_text_position_spec (t : slots) :
  ~ all_absent t ->
  exists T a b,
    Trigram_init t = Ok T /\ trigram T = t /\
    first_present t = Some a /\ last_present t = Some b /\
    trigram_text_position T
      = (fst (text_position a), snd (text_position b)) /\
    (forall m, t = (None, Some m, None) ->
               trigram_text_position T = text_position m).
Proof.
  intros Hsome.
  destruct (first_present t) as [a|] eqn:Ha;
    [|apply first_present_None in Ha; contradiction].
  destruct (last_present t) as [b|] eqn:Hb;
    [|apply last_present_None in Hb; contradiction].
  eexists _, a, b. split; [apply Trigram_init_present; eassumption|].
  simpl. repeat split.
  intros m ->. simpl in Ha, Hb. injection Ha as <-. injection Hb as <-.
  destruct (text_position m). reflexivity.
Qed.

Lemma Trigram_text_position_witness :
  exists T a b,
    Trigram_init middle_only = Ok T /\
    trigram T = middle_only /\
    first_present middle_only = Some a /\
    last_present middle_only = Some b /\
    trigram_text_position T
      = (fst (text_position a), snd (text_position b)) /\
    (forall m, middle_only = (None, Some m, None) ->
               trigram_text_position T = text_position m).
Proof.
  apply (Trigram_text_position_spec middle_only).
  unfold all_absent, middle_only. discriminate.
Defined.

Lemma tuple_eqb_spec (a b : Z * Z) : tuple_eqb a b = true <-> a = b.
Proof.
  destruct a, b. unfold tuple_eqb. simpl.
  rewrite andb_true_iff, !Z.eqb_eq. split; [intros [-> ->]|intros [= -> ->]]; auto.
Qed.

(** C9.  Two tokens are equal if and only if their word form, lemma, POS tag
    and text span agree, whatever their sentence indices; a token compared
    with [None], from either side, is unequal and raises nothing; a token
    compared with a value of another kind raises the type-mismatch error. *)
Theorem Token_eq_spec (t1 t2 : Token) :
  (exists b : bool,
     py_eq (PyToken t1) (PyToken t2) = Ok b /\
     (b = true <-> same_token_fields t1 t2)) /\
  (forall n : Z,
     py_eq (PyToken t1)
           (PyToken {| text_position := text_position t2; sentence := n;
                       wordform := wordform t2; lemma := lemma t2;
                       pos_tag := pos_tag t2 |})
       = py_eq (PyToken t1) (PyToken t2)) /\
  py_eq (PyToken t1) PyNone = Ok false /\
  py_eq PyNone (PyToken t1) = Ok false /\
  (forall n : Z, py_eq (PyToken t1) (PyInt n) = Err TypeMismatchError) /\
  (forall s : pystr, py_eq (PyToken t1) (PyStr s) = Err TypeMismatchError).
Proof.
  split; [|repeat split].
  eexists. split; [reflexivity|].
  unfold same_token_fields.
  rewrite !andb_true_iff, !Z.eqb_eq, tuple_eqb_spec. tauto.
Qed.

(** ** The documented examples *)

Example parse_word_pos_tag :
  run echo_morph (parse_word (u "NOUN")) = ([], Ok {[ "pos" := VStr (u "NOUN") ]}).
Proof. vm_compute. reflexivity. Qed.

Example parse_word_quoted :
  outcome echo_morph (parse_word (u "'table'"))
    = Ok {[ "word_form" := VStr (u "table") ]} /\
  outcome echo_morph (parse_word (double_quote :: u "table" ++ [double_quote]))
    = Ok {[ "word_form" := VStr (u "table") ]}.
Proof. split; vm_compute; reflexivity. Qed.

Example parse_single_part_quoted_verb :
  outcome echo_morph
    (parse_single_part (double_quote :: u "run" ++ double_quote :: u "+VERB"))
    = Ok {[ "pos" := VStr (u "VERB"); "word_form" := VStr (u "run") ]}.
Proof. vm_compute. reflexivity. Qed.

Example parse_single_part_two_pluses :
  outcome echo_morph (parse_single_part (u "a+b+c")) = Err TooManyOperatorsError.
Proof. vm_compute. reflexivity. Qed.

Example request_to_trigram_lengths :
  outcome echo_morph (request_to_trigram (u "")) = Err InvalidLengthError /\
  outcome echo_morph (request_to_trigram (u "a b c d")) = Err InvalidLengthError.
Proof. split; vm_compute; reflexivity. Qed.

(** The request of the docstring of [request_to_trigram]. *)
Example request_to_trigram_docstring :
  outcome echo_morph
    (request_to_trigram
       (double_quote :: u "быть" ++ double_quote :: u "+VERB сильный 'человеком'+NOUN"))
    = Ok [ (1%Z, {[ "pos" := VStr (u "VERB"); "word_form" := VStr (u "быть") ]});
           (2%Z, {[ "lemma" := VList {[ u "сильный" ]} ]});
           (3%Z, {[ "pos" := VStr (u "NOUN");
                    "word_form" := VStr (u "человеком") ]}) ].
Proof. vm_compute. reflexivity. Qed.

Example is_a_word_hyphenated : is_a_word (u "как-то") = true.
Proof. vm_compute. reflexivity. Qed.

(** A quoted text with a line break in it is wrapped and is not an exact
    form: [.] stops at the newline. *)
Example is_exact_form_newline :
  fully_quoted (single_quote :: 0x61 :: 0x0A :: 0x62 :: [single_quote]) = true /\
  is_exact_form (single_quote :: 0x61 :: 0x0A :: 0x62 :: [single_quote]) = false.
Proof. split; vm_compute; reflexivity. Qed.
(** ** Lower-casing twice *)

Lemma lower_table_lowered : forallb entry_lowered lower_table = true.
Proof. vm_compute. reflexivity. Qed.

(** A character is left alone by the table or is one an entry maps. *)
Lemma lower_lookup_cases tbl c :
  lower_lookup tbl c = c \/
  exists lo hi stride img,
    In (lo, hi, stride, img) tbl /\
    In c (entry_sources (lo, hi, stride, img)) /\
    lower_lookup tbl c = img + (c - lo).
Proof.
  induction tbl as [|[[[lo hi] stride] img] tbl IH];
    cbn [lower_lookup]; [auto|].
  destruct ((lo <=? c) && (c <=? hi) && ((c - lo) mod stride =? 0)) eqn:Hm.
  - right. exists lo, hi, stride, img.
    apply andb_true_iff in Hm as [Hm Hmod].
    apply andb_true_iff in Hm as [Hlo Hhi].
    apply N.leb_le in Hlo, Hhi. apply N.eqb_eq in Hmod.
    split; [apply in_eq|]. split; [|reflexivity].
    unfold entry_sources. apply in_map_iff. exists (N.to_nat ((c - lo) / stride)). split.
    + rewrite N2Nat.id.
      pose proof (N.Div0.div_mod (c - lo) stride) as Hdm.
      rewrite Hmod, N.add_0_r in Hdm. lia.
    + apply in_seq.
      assert (Hq : (c - lo) / stride <= (hi - lo) / stride)
        by (apply N.Div0.div_le_mono; lia).
      revert Hq. generalize ((c - lo) / stride) ((hi - lo) / stride).
      intros q q' Hq. lia.
  - destruct IH as [IH|(lo' & hi' & stride' & img' & Hin & Hsrc & Heq)];
      [auto|].
    right. exists lo', hi', stride', img'.
    split; [apply in_cons, Hin | auto].
Qed.

(** What a character is mapped to is mapped to itself. *)
Lemma lowered_lower_lookup c :
  c <> 0x130 -> c <> 0x3A3 -> lowered (lower_lookup lower_table c) = true.
Proof.
  intros H1 H2.
  destruct (lower_lookup_cases lower_table c)
    as [Hid|(lo & hi & stride & img & Hin & Hsrc & Heq)].
  - rewrite Hid. unfold lowered. rewrite Hid, N.eqb_refl. simpl.
    destruct (N.eqb_spec c 0x130); [contradiction|].
    destruct (N.eqb_spec c 0x3A3); [contradiction|]. reflexivity.
  - rewrite Heq. pose proof lower_table_lowered as Hall.
    rewrite forallb_forall in Hall. specialize (Hall _ Hin).
    unfold entry_lowered in Hall. rewrite forallb_forall in Hall.
    apply Hall, Hsrc.
Qed.

Lemma lower_char_lowered before c after :
  forallb lowered (lower_char before c after) = true.
Proof.
  unfold lower_char, to_lower_full.
  destruct (N.eqb_spec c 0x3A3) as [->|H3].
  - unfold handle_capital_sigma.
    match goal with |- context [if ?b then _ else _] => destruct b end;
      vm_compute; reflexivity.
  - destruct (N.eqb_spec c 0x130) as [->|H1]; [vm_compute; reflexivity|].
    cbn [forallb]. rewrite lowered_lower_lookup by assumption. reflexivity.
Qed.

Lemma lower_from_lowered before s :
  forallb lowered (lower_from before s) = true.
Proof.
  revert before. induction s as [|c s IH]; intros before; simpl; [reflexivity|].
  rewrite forallb_app, lower_char_lowered, IH. reflexivity.
Qed.

(** A string of lower-case characters is its own lower-case form. *)
Lemma lower_from_fixed s :
  forallb lowered s = true -> forall before, lower_from before s = s.
Proof.
  induction s as [|c s IH]; simpl; [reflexivity|].
  rewrite andb_true_iff. intros [Hc Hs] before.
  rewrite IH by assumption. unfold lowered in Hc.
  apply andb_true_iff in Hc as [Hc H3]. apply andb_true_iff in Hc as [Hc H1].
  apply N.eqb_eq in Hc. apply negb_true_iff in H1, H3.
  unfold lower_char, to_lower_full. rewrite H3, H1, Hc. reflexivity.
Qed.

Lemma str_lower_lowered s : forallb lowered (str_lower s) = true.
Proof. apply lower_from_lowered. Qed.

Lemma str_lower_fixed s : forallb lowered s = true -> str_lower s = s.
Proof. intros H. apply lower_from_fixed, H. Qed.

Lemma remove_quotes_lowered s :
  forallb lowered s = true -> forallb lowered (remove_quotes s) = true.
Proof.
  unfold remove_quotes. induction s as [|c s IH]; simpl; [reflexivity|].
  rewrite andb_true_iff. intros [Hc Hs].
  destruct (negb (is_quote c)); simpl; [rewrite Hc|]; auto.
Qed.

Lemma remove_quotes_no_quote s :
  forallb (fun c => negb (is_quote c)) (remove_quotes s) = true.
Proof.
  unfold remove_quotes. induction s as [|c s IH]; simpl; [reflexivity|].
  destruct (negb (is_quote c)) eqn:Hq; simpl; [rewrite Hq|]; auto.
Qed.
(** ** Further properties of the parser *)

Lemma count_plus_app a b :
  count_plus (a ++ plus :: b) = S (count_plus a + count_plus b).
Proof.
  unfold count_plus. rewrite List.filter_app, length_app.
  cbn [List.filter]. rewrite N.eqb_refl. cbn [length].
  apply Nat.add_succ_r.
Qed.

Lemma count_plus_absent s : str_contains plus s = false -> count_plus s = 0%nat.
Proof.
  unfold count_plus, str_contains. induction s as [|c s IH]; simpl; [reflexivity|].
  rewrite orb_false_iff. intros [-> Hs]. auto.
Qed.

Lemma count_plus_present s :
  str_contains plus s = true -> (1 <= count_plus s)%nat.
Proof.
  intros H. apply str_contains_split in H as (a & b & -> & _).
  rewrite count_plus_app. lia.
Qed.

Lemma is_pos_tag_cases word :
  is_pos_tag word = true -> In word pos_tag_list.
Proof.
  unfold is_pos_tag. intros H. apply bool_decide_eq_true in H.
  change possible_pos_tags with (list_to_set pos_tag_list : gset pystr) in H.
  apply elem_of_list_to_set in H. apply list_elem_of_In. exact H.
Qed.

Lemma pos_tags_are_words :
  forallb (fun w => is_a_word w && negb (is_exact_form w)) pos_tag_list = true.
Proof. vm_compute. reflexivity. Qed.

(** X1.  [is_exact_form] accepts exactly the strings that start with a
    quote, single or double, go on with text that holds no line break, and
    then hold the same quote again; what follows that quote is not looked
    at. *)
Theorem is_exact_form_accepts (s : pystr) :
  is_exact_form s = true <->
  exists q body rest,
    is_quote q = true /\ s = q :: body ++ q :: rest /\
    forallb not_newline body = true.
Proof. apply is_exact_form_spec. Qed.

(** X18.  [is_a_word] accepts exactly the non-empty strings of alphabetic
    characters and the strings that start with a run of the letters a-z,
    A-Z, а-я, А-Я, an optional hyphen and another such run; what follows
    is not looked at. *)
Theorem is_a_word_accepts (s : pystr) :
  is_a_word s = true <->
  str_isalpha s = true \/ exists p t, s = p ++ t /\ word_form p.
Proof. apply is_a_word_spec. Qed.

Section MoreParser.

Variable morph : pystr -> list Parse.

(** X2.  Every POS tag also passes [is_a_word] and is no exact form; since
    [parse_word] tests for a tag first, a tag is returned under [pos] and
    the analyzer is not called. *)
Theorem pos_tag_precedence (word : pystr) :
  is_pos_tag word = true ->
  is_a_word word = true /\ is_exact_form word = false /\
  run morph (parse_word word) = ([], Ok {[ "pos" := VStr word ]}).
Proof.
  intros Hpos. pose proof pos_tags_are_words as Hall.
  rewrite forallb_forall in Hall.
  specialize (Hall _ (is_pos_tag_cases _ Hpos)).
  apply andb_true_iff in Hall as [Hword Hexact].
  apply negb_true_iff in Hexact. repeat split; try assumption.
  unfold parse_word. rewrite Hpos. reflexivity.
Qed.

Lemma run_parse_word word :
  run morph (parse_word word) =
  if is_pos_tag word then ([], Ok {[ "pos" := VStr word ]})
  else if is_exact_form word then
    ([], Ok {[ "word_form" := VStr (remove_quotes (str_lower word)) ]})
  else if is_a_word word then
    ([word],
     Ok {[ "lemma" :=
             VList (list_to_set
                      (map (fun p => str_lower (normal_form p)) (morph word))) ]})
  else ([], Err (UnrecognizedTokenError word)).
Proof.
  unfold parse_word. rewrite re_sub_quote_pattern.
  destruct (is_pos_tag word), (is_exact_form word), (is_a_word word);
    reflexivity.
Qed.

(** X3.  [parse_word] fails exactly on a word that is neither a POS tag, nor
    an exact form, nor a word; the failure is the HTTP 400 naming that word;
    and the analyzer is called once, with the word, exactly when the word is
    read as a lemma request, and not at all otherwise. *)
Theorem parse_word_failure (word : pystr) :
  ((exists e, outcome morph (parse_word word) = Err e) <->
   is_pos_tag word = false /\ is_exact_form word = false /\
   is_a_word word = false) /\
  (forall e, outcome morph (parse_word word) = Err e ->
             e = UnrecognizedTokenError word) /\
  (morph_calls morph (parse_word word) =
   if negb (is_pos_tag word) && negb (is_exact_form word) && is_a_word word
   then [word] else []).
Proof.
  unfold outcome, morph_calls. rewrite run_parse_word.
  destruct (is_pos_tag word), (is_exact_form word), (is_a_word word);
    cbn [fst snd negb andb];
    (split; [split; [intros [e H]; try discriminate H; auto
                    |intros (H1 & H2 & H3); try discriminate; eauto]
            |split; [intros e H; try discriminate H;
                     injection H as <-; reflexivity
                    |reflexivity]]).
Qed.

Lemma run_parse_single_part_plain part :
  str_contains plus part = false ->
  run morph (parse_single_part part) = run morph (parse_word part).
Proof.
  intros H. unfold parse_single_part. rewrite H, run_bind.
  destruct (run morph (parse_word part)) as [calls [d|e]]; [|reflexivity].
  simpl. rewrite app_nil_r, dict_update_empty. reflexivity.
Qed.

Lemma run_parse_single_part_combined a b :
  str_contains plus a = false -> str_contains plus b = false ->
  run morph (parse_single_part (a ++ plus :: b)) =
  if (is_a_word a || is_exact_form a) && is_pos_tag b then
    match run morph (parse_word a) with
    | (calls, Ok d) => (calls, Ok (dict_update {[ "pos" := VStr b ]} d))
    | (calls, Err e) => (calls, Err e)
    end
  else ([], Err InvalidCombinationError).
Proof.
  intros Ha Hb. unfold parse_single_part.
  rewrite str_contains_app, str_split_on_app, str_split_on_absent by assumption.
  simpl. destruct ((is_a_word a || is_exact_form a) && is_pos_tag b); simpl.
  - rewrite run_bind.
    destruct (run morph (parse_word a)) as [calls [d|e]]; [|reflexivity].
    simpl. rewrite app_nil_r, insert_empty. reflexivity.
  - reflexivity.
Qed.

Lemma run_parse_single_part_too_many a b :
  str_contains plus a = false -> str_contains plus b = true ->
  run morph (parse_single_part (a ++ plus :: b)) = ([], Err TooManyOperatorsError).
Proof.
  intros Ha Hb. unfold parse_single_part.
  rewrite str_contains_app, str_split_on_app by assumption.
  apply str_contains_split in Hb as (b1 & b2 & -> & Hb1).
  rewrite str_split_on_app by assumption. simpl.
  pose proof (str_split_on_length plus b2).
  destruct (str_split_on plus b2); simpl in *; [lia|reflexivity].
Qed.

(** X4.  [parse_single_part] fails with TooManyOperatorsError exactly on a
    part that holds two or more [+], and then without calling the
    analyzer. *)
Theorem parse_single_part_too_many_iff (part : pystr) :
  (outcome morph (parse_single_part part) = Err TooManyOperatorsError <->
   (2 <= count_plus part)%nat) /\
  ((2 <= count_plus part)%nat ->
   morph_calls morph (parse_single_part part) = []).
Proof.
  unfold outcome, morph_calls.
  destruct (str_contains plus part) eqn:Hp.
  - apply str_contains_split in Hp as (a & b & -> & Ha).
    rewrite count_plus_app, (count_plus_absent a Ha).
    destruct (str_contains plus b) eqn:Hb.
    + rewrite run_parse_single_part_too_many by assumption.
      apply count_plus_present in Hb. simpl. split; [split|]; auto; lia.
    + rewrite run_parse_single_part_combined by assumption.
      rewrite (count_plus_absent b Hb). split; [split|]; try lia.
      destruct ((is_a_word a || is_exact_form a) && is_pos_tag b);
        [|discriminate].
      rewrite run_parse_word.
      destruct (is_pos_tag a), (is_exact_form a), (is_a_word a); discriminate.
  - rewrite run_parse_single_part_plain, (count_plus_absent part Hp)
      by assumption.
    split; [split|]; try lia.
    rewrite run_parse_word.
    destruct (is_pos_tag part), (is_exact_form part), (is_a_word part);
      discriminate.
Qed.

(** X5.  For a part [a+b] with one [+], where [a] is a word or an exact form
    and no POS tag, and [b] is a POS tag: the part parses to what [a]
    parses to, which has no [pos], with [b] added under [pos]; the analyzer
    is called as for [a] alone. *)
Theorem parse_single_part_adds_tag (a b : pystr) :
  str_contains plus a = false -> str_contains plus b = false ->
  (is_a_word a || is_exact_form a) && is_pos_tag b = true ->
  is_pos_tag a = false ->
  exists d,
    outcome morph (parse_word a) = Ok d /\ d !! "pos" = None /\
    outcome morph (parse_single_part (a ++ plus :: b))
      = Ok (<[ "pos" := VStr b ]> d) /\
    morph_calls morph (parse_single_part (a ++ plus :: b))
      = morph_calls morph (parse_word a).
Proof.
  intros Ha Hb Hguard Hpos. unfold outcome, morph_calls.
  rewrite run_parse_single_part_combined, Hguard by assumption.
  apply andb_true_iff in Hguard as [Hword _].
  destruct (parse_word_accepts morph a Hword) as [d Hd].
  pose proof (parse_word_no_pos morph a d Hpos Hd) as Hnone.
  unfold outcome in Hd.
  destruct (run morph (parse_word a)) as [calls [d'|e]]; simpl in Hd;
    [|discriminate].
  injection Hd as ->. exists d. simpl. repeat split; try assumption.
  f_equal. unfold dict_update. symmetry.
  apply insert_union_singleton_r, Hnone.
Qed.

(** X6.  A part [a+b] with one [+] fails with InvalidCombinationError exactly
    when [a] is neither a word nor an exact form or [b] is no POS tag, and
    then without calling the analyzer. *)
Theorem parse_single_part_refused_iff (a b : pystr) :
  str_contains plus a = false -> str_contains plus b = false ->
  (outcome morph (parse_single_part (a ++ plus :: b))
     = Err InvalidCombinationError <->
   (is_a_word a || is_exact_form a) && is_pos_tag b = false) /\
  ((is_a_word a || is_exact_form a) && is_pos_tag b = false ->
   morph_calls morph (parse_single_part (a ++ plus :: b)) = []).
Proof.
  intros Ha Hb. unfold outcome, morph_calls.
  rewrite run_parse_single_part_combined by assumption.
  destruct ((is_a_word a || is_exact_form a) && is_pos_tag b) eqn:Hguard.
  - split; [split|]; try discriminate.
    rewrite run_parse_word.
    destruct (is_pos_tag a), (is_exact_form a), (is_a_word a); discriminate.
  - cbn [fst snd]. split; [split|]; reflexivity || auto.
Qed.

End MoreParser.

Lemma parse_single_part_adds_tag_witness :
  exists d,
    outcome echo_morph (parse_word (u "'Table'")) = Ok d /\
    d !! "pos" = None /\
    outcome echo_morph (parse_single_part (u "'Table'" ++ plus :: u "NOUN"))
      = Ok (<[ "pos" := VStr (u "NOUN") ]> d) /\
    morph_calls echo_morph (parse_single_part (u "'Table'" ++ plus :: u "NOUN"))
      = morph_calls echo_morph (parse_word (u "'Table'")).
Proof.
  apply (parse_single_part_adds_tag echo_morph (u "'Table'") (u "NOUN"));
    vm_compute; reflexivity.
Defined.

Lemma pos_tag_precedence_witness :
  is_a_word (u "VERB") = true /\ is_exact_form (u "VERB") = false /\
  run echo_morph (parse_word (u "VERB"))
    = ([], Ok {[ "pos" := VStr (u "VERB") ]}).
Proof.
  apply (pos_tag_precedence echo_morph (u "VERB")). vm_compute. reflexivity.
Defined.

Lemma parse_single_part_refused_witness :
  (outcome echo_morph (parse_single_part ([] ++ plus :: u "VERB"))
     = Err InvalidCombinationError <->
   (is_a_word [] || is_exact_form []) && is_pos_tag (u "VERB") = false) /\
  ((is_a_word [] || is_exact_form []) && is_pos_tag (u "VERB") = false ->
   morph_calls echo_morph (parse_single_part ([] ++ plus :: u "VERB")) = []).
Proof.
  apply (parse_single_part_refused_iff echo_morph [] (u "VERB"));
    vm_compute; reflexivity.
Defined.
(** ** The values of a requirement *)

Section Values.

Variable morph : pystr -> list Parse.

(** What [parse_word] stores under each key. *)
Lemma parse_word_values word d k v :
  outcome morph (parse_word word) = Ok d -> d !! k = Some v ->
  (k = "pos" /\ v = VStr word /\ is_pos_tag word = true) \/
  (k = "word_form" /\ v = VStr (remove_quotes (str_lower word))) \/
  (k = "lemma" /\
   exists L, v = VList L /\ forall x, x ∈ L -> exists y, x = str_lower y).
Proof.
  unfold outcome. rewrite run_parse_word.
  destruct (is_pos_tag word) eqn:Hpos;
    [|destruct (is_exact_form word); [|destruct (is_a_word word)]];
    cbn [snd]; intros [= <-]; try discriminate;
    rewrite lookup_singleton_Some; intros [<- <-].
  - auto.
  - auto.
  - right. right. split; [reflexivity|]. eexists. split; [reflexivity|].
    intros x Hx. apply elem_of_list_to_set, list_elem_of_In, in_map_iff in Hx
      as (p & <- & _). eauto.
Qed.

Lemma parse_single_part_values part r k v :
  outcome morph (parse_single_part part) = Ok r -> r !! k = Some v ->
  (k = "pos" /\ exists t, v = VStr t /\ is_pos_tag t = true) \/
  (k = "word_form" /\ exists w, v = VStr (remove_quotes (str_lower w))) \/
  (k = "lemma" /\
   exists L, v = VList L /\ forall x, x ∈ L -> exists y, x = str_lower y).
Proof.
  destruct (parse_single_part_cases morph part)
    as [[_ ->]|[(a & b & _ & _ & _ & ->)| ->]]; [| |discriminate].
  - intros Hd Hk.
    destruct (parse_word_values _ _ _ _ Hd Hk) as [(-> & -> & H)|[(-> & ->)|H]];
      eauto 6.
  - destruct ((is_a_word a || is_exact_form a) && is_pos_tag b) eqn:Hguard;
      [|discriminate].
    destruct (outcome morph (parse_word a)) as [d|] eqn:Hd; [|discriminate].
    intros [= <-]. unfold dict_update. rewrite lookup_union_Some_raw.
    intros [Hk|[_ Hk]].
    + destruct (parse_word_values _ _ _ _ Hd Hk)
        as [(-> & -> & H)|[(-> & ->)|H]]; eauto 6.
    + apply lookup_singleton_Some in Hk as [<- <-].
      apply andb_true_iff in Hguard as [_ Hb]. eauto 6.
Qed.

(** A value of the map of a request is a parsed segment of the request. *)
Lemma request_to_trigram_values request m k r :
  outcome morph (request_to_trigram request) = Ok m -> (k, r) ∈ m ->
  exists seg,
    In seg (str_split (str_strip request)) /\
    outcome morph (parse_single_part seg) = Ok r.
Proof.
  rewrite request_to_trigram_outcome. cbv zeta.
  destruct ((3 <? _) || _)%nat; [discriminate|].
  destruct (parse_segments morph _) as [reqs|] eqn:Hreqs; [|discriminate].
  intros [= <-] Hin. apply elem_of_zip_r in Hin.
  apply parse_segments_Forall2 in Hreqs.
  revert Hin. generalize (str_split (str_strip request)) Hreqs. clear.
  intros segs Hreqs.
  induction Hreqs as [|seg r' segs reqs Hr _ IH]; intros Hin.
  - inv Hin.
  - apply elem_of_cons in Hin as [->|Hin].
    + exists seg. split; [left; reflexivity | assumption].
    + destruct (IH Hin) as (seg' & Hseg & Hout).
      exists seg'. split; [right; assumption | assumption].
Qed.

(** X7.  Whatever [parse_single_part] returns under [pos] is one of the POS
    tags of [possible_pos_tags], and so is every [pos] in the map of
    [request_to_trigram]. *)
Theorem pos_value_is_tag :
  (forall part r v,
     outcome morph (parse_single_part part) = Ok r ->
     r !! "pos" = Some v -> exists t, v = VStr t /\ is_pos_tag t = true) /\
  (forall request m k r v,
     outcome morph (request_to_trigram request) = Ok m -> (k, r) ∈ m ->
     r !! "pos" = Some v -> exists t, v = VStr t /\ is_pos_tag t = true).
Proof.
  assert (Hpart : forall part r v,
             outcome morph (parse_single_part part) = Ok r ->
             r !! "pos" = Some v -> exists t, v = VStr t /\ is_pos_tag t = true).
  { intros part r v Hr Hv.
    destruct (parse_single_part_values _ _ _ _ Hr Hv)
      as [(_ & H)|[(H & _)|(H & _)]]; [exact H|discriminate|discriminate]. }
  split; [exact Hpart|].
  intros request m k r v Hm Hin Hv.
  destruct (request_to_trigram_values _ _ _ _ Hm Hin) as (seg & _ & Hr).
  eapply Hpart; eassumption.
Qed.

(** X8.  The strings [parse_single_part] returns under [word_form] and in
    the list under [lemma] are in lower case, that is, [lower()] leaves them
    as they are, and the one under [word_form] holds no quote character. *)
Theorem requirement_values_lowered (part : pystr) (r : gmap string reqval) :
  outcome morph (parse_single_part part) = Ok r ->
  (forall v, r !! "word_form" = Some (VStr v) ->
             str_lower v = v /\
             forallb (fun c => negb (is_quote c)) v = true) /\
  (forall L x, r !! "lemma" = Some (VList L) -> x ∈ L -> str_lower x = x).
Proof.
  intros Hr. split.
  - intros v Hv.
    destruct (parse_single_part_values _ _ _ _ Hr Hv)
      as [(H & _)|[(_ & w & [= ->])|(H & _)]]; try discriminate.
    split; [|apply remove_quotes_no_quote].
    apply str_lower_fixed, remove_quotes_lowered, str_lower_lowered.
  - intros L x HL Hx.
    destruct (parse_single_part_values _ _ _ _ Hr HL)
      as [(H & _)|[(H & _)|(_ & L' & [= <-] & HL')]]; try discriminate.
    destruct (HL' x Hx) as [y ->].
    apply str_lower_fixed, str_lower_lowered.
Qed.

End Values.

Lemma pos_value_is_tag_witness :
  exists t, VStr (u "NOUN") = VStr t /\ is_pos_tag t = true.
Proof.
  apply (proj1 (pos_value_is_tag echo_morph) (u "'Table'+NOUN")
           {[ "pos" := VStr (u "NOUN"); "word_form" := VStr (u "table") ]});
    vm_compute; reflexivity.
Defined.

Lemma requirement_values_lowered_witness :
  (forall v, ({[ "word_form" := VStr (u "table") ]} : gmap string reqval)
               !! "word_form" = Some (VStr v) ->
             str_lower v = v /\
             forallb (fun c => negb (is_quote c)) v = true) /\
  (forall L x, ({[ "word_form" := VStr (u "table") ]} : gmap string reqval)
                 !! "lemma" = Some (VList L) -> x ∈ L -> str_lower x = x).
Proof.
  apply (requirement_values_lowered echo_morph (u "'Table'")).
  vm_compute. reflexivity.
Defined.
(** ** Whitespace in a request *)

Lemma split_whitespace_spaces cur ws :
  forallb char_isspace ws = true ->
  split_whitespace cur ws = split_whitespace cur [].
Proof.
  revert cur. induction ws as [|c ws IH]; intros cur; [reflexivity|].
  cbn [forallb split_whitespace]. rewrite andb_true_iff. intros [-> Hws].
  destruct cur; rewrite (IH [] Hws); reflexivity.
Qed.

Lemma split_whitespace_trailing ws s :
  forallb char_isspace ws = true ->
  forall cur, split_whitespace cur (s ++ ws) = split_whitespace cur s.
Proof.
  intros Hws. induction s as [|c s IH]; intros cur.
  - apply split_whitespace_spaces, Hws.
  - cbn [app split_whitespace].
    destruct (char_isspace c); [destruct cur|]; rewrite IH; reflexivity.
Qed.

Lemma split_whitespace_leading ws s :
  forallb char_isspace ws = true ->
  split_whitespace [] (ws ++ s) = split_whitespace [] s.
Proof.
  induction ws as [|c ws IH]; [reflexivity|].
  cbn [forallb app split_whitespace]. rewrite andb_true_iff.
  intros [-> Hws]. apply IH, Hws.
Qed.

(** What [lstrip] removes is whitespace. *)
Lemma lstrip_spec s :
  exists ws, forallb char_isspace ws = true /\ s = ws ++ lstrip s.
Proof.
  induction s as [|c s (ws & Hws & IH)]; [exists []; auto|].
  cbn [lstrip]. destruct (char_isspace c) eqn:Hc.
  - exists (c :: ws). cbn [forallb app]. rewrite Hc, Hws, <- IH. auto.
  - exists []. auto.
Qed.

Lemma forallb_rev {A} (f : A -> bool) l :
  forallb f (rev l) = forallb f l.
Proof.
  induction l as [|x l IH]; [reflexivity|]. cbn [rev forallb].
  rewrite forallb_app, IH. cbn [forallb].
  rewrite andb_true_r. apply andb_comm.
Qed.

Lemma rstrip_spec s :
  exists ws, forallb char_isspace ws = true /\ s = rstrip s ++ ws.
Proof.
  unfold rstrip. destruct (lstrip_spec (rev s)) as (ws & Hws & Heq).
  exists (rev ws). rewrite forallb_rev. split; [exact Hws|].
  rewrite <- rev_app_distr, <- Heq, rev_involutive. reflexivity.
Qed.

Lemma str_split_strip s : str_split (str_strip s) = str_split s.
Proof.
  unfold str_split, str_strip.
  destruct (lstrip_spec s) as (ws1 & Hws1 & Heq1).
  destruct (rstrip_spec (lstrip s)) as (ws2 & Hws2 & Heq2).
  rewrite Heq1 at 2. rewrite split_whitespace_leading by assumption.
  rewrite Heq2 at 2. rewrite split_whitespace_trailing by assumption.
  reflexivity.
Qed.

(** X9.  [request_to_trigram] looks at a request through its
    whitespace-separated segments only: two requests with the same segments
    are parsed alike, the [strip()] before the [split()] changes nothing, and
    whitespace around a request is ignored. *)
Theorem request_to_trigram_whitespace (request : pystr) :
  str_split (str_strip request) = str_split request /\
  (forall request',
     str_split request' = str_split request ->
     request_to_trigram request' = request_to_trigram request) /\
  (forall before after,
     forallb char_isspace before = true ->
     forallb char_isspace after = true ->
     request_to_trigram (before ++ request ++ after)
       = request_to_trigram request).
Proof.
  split; [apply str_split_strip|].
  assert (Hsame : forall request',
             str_split request' = str_split request ->
             request_to_trigram request' = request_to_trigram request).
  { intros request' H. unfold request_to_trigram.
    rewrite !str_split_strip, H. reflexivity. }
  split; [exact Hsame|].
  intros before after Hb Ha. apply Hsame. unfold str_split.
  rewrite split_whitespace_leading, split_whitespace_trailing by assumption.
  reflexivity.
Qed.

(** ** What the analyzer is asked *)

Lemma split_whitespace_segments s :
  forall cur,
    forallb not_space cur = true ->
    Forall (fun seg => seg <> [] /\ forallb not_space seg = true)
           (split_whitespace cur s).
Proof.
  induction s as [|c s IH]; intros cur Hcur; cbn [split_whitespace].
  - destruct cur as [|x cur]; [constructor|].
    constructor; [|constructor]. split.
    + intros H. apply (f_equal (@length _)) in H.
      rewrite length_rev in H. discriminate.
    + rewrite forallb_rev. exact Hcur.
  - destruct (char_isspace c) eqn:Hc.
    + destruct cur as [|x cur]; [apply IH; reflexivity|].
      constructor; [|apply IH; reflexivity]. split.
      * intros H. apply (f_equal (@length _)) in H.
        rewrite length_rev in H. discriminate.
      * rewrite forallb_rev. exact Hcur.
    + apply IH. cbn [forallb]. unfold not_space at 1. rewrite Hc. exact Hcur.
Qed.

Section Calls.

Variable morph : pystr -> list Parse.

(** The analyzer gets the word of a part, at most once. *)
Lemma parse_single_part_calls part :
  forallb not_space part = true ->
  Forall analyzable (morph_calls morph (parse_single_part part)) /\
  (length (morph_calls morph (parse_single_part part)) <= 1)%nat.
Proof.
  intros Hpart. unfold morph_calls.
  assert (Hword : forall w,
             forallb not_space w = true -> str_contains plus w = false ->
             Forall analyzable (fst (run morph (parse_word w))) /\
             (length (fst (run morph (parse_word w))) <= 1)%nat).
  { intros w Hw Hplus. rewrite run_parse_word.
    destruct (is_pos_tag w) eqn:H1; [split; [constructor|simpl; lia]|].
    destruct (is_exact_form w) eqn:H2; [split; [constructor|simpl; lia]|].
    destruct (is_a_word w) eqn:H3; [|split; [constructor|simpl; lia]].
    split; [|simpl; lia]. repeat constructor; assumption. }
  destruct (str_contains plus part) eqn:Hp.
  - apply str_contains_split in Hp as (a & b & -> & Ha).
    rewrite forallb_app in Hpart. apply andb_true_iff in Hpart as [Hsa _].
    destruct (str_contains plus b) eqn:Hb.
    + rewrite run_parse_single_part_too_many by assumption.
      split; [constructor|simpl; lia].
    + rewrite run_parse_single_part_combined by assumption.
      destruct ((is_a_word a || is_exact_form a) && is_pos_tag b);
        [|split; [constructor|simpl; lia]].
      destruct (Hword a Hsa Ha) as [H1 H2].
      destruct (run morph (parse_word a)) as [calls [d|e]]; auto.
  - rewrite run_parse_single_part_plain by assumption. apply Hword; assumption.
Qed.

Lemma request_loop_calls segments :
  Forall (fun seg => seg <> [] /\ forallb not_space seg = true) segments ->
  forall i acc,
    Forall analyzable (morph_calls morph (request_loop i segments acc)) /\
    (length (morph_calls morph (request_loop i segments acc))
     <= length segments)%nat.
Proof.
  induction 1 as [|seg rest [_ Hseg] _ IH]; intros i acc.
  - split; [constructor|reflexivity].
  - unfold morph_calls. cbn [request_loop]. rewrite run_bind.
    destruct (parse_single_part_calls seg Hseg) as [H1 H2].
    unfold morph_calls in H1, H2.
    destruct (run morph (parse_single_part seg)) as [calls [r|e]];
      cbn [fst] in H1, H2.
    + specialize (IH (i + 1)%Z (dict_set acc (i + 1)%Z r)).
      unfold morph_calls in IH.
      destruct (run morph (request_loop _ rest _)) as [calls' r'].
      cbn [fst] in *. destruct IH as [IH1 IH2].
      split; [apply Forall_app; auto|].
      rewrite length_app. cbn [length]. lia.
    + cbn [fst length]. split; [assumption|lia].
Qed.

(** X10.  Every word [request_to_trigram] hands to the morphological
    analyzer passes [is_a_word], is no POS tag and no exact form, and holds
    no [+] and no whitespace; there are at most three such calls, and none
    when the request fails with InvalidLengthError. *)
Theorem request_to_trigram_analyzer_calls (request : pystr) :
  Forall analyzable (morph_calls morph (request_to_trigram request)) /\
  (length (morph_calls morph (request_to_trigram request)) <= 3)%nat /\
  (outcome morph (request_to_trigram request) = Err InvalidLengthError ->
   morph_calls morph (request_to_trigram request) = []).
Proof.
  unfold request_to_trigram.
  pose proof (split_whitespace_segments (str_strip request) [] eq_refl) as Hsegs.
  fold (str_split (str_strip request)) in Hsegs.
  destruct ((3 <? length (str_split (str_strip request))) ||
            (length (str_split (str_strip request)) <? 1))%nat eqn:Hlen.
  - repeat split; [constructor|simpl; lia].
  - apply orb_false_iff in Hlen as [Hlen _]. apply Nat.ltb_ge in Hlen.
    destruct (request_loop_calls _ Hsegs 0%Z []) as [H1 H2].
    split; [exact H1|]. split; [exact (Nat.le_trans _ _ _ H2 Hlen)|].
    intros Herr. exfalso.
    rewrite request_loop_outcome in Herr by constructor.
    destruct (parse_segments morph _) eqn:Hs; [discriminate|].
    injection Herr as ->. apply parse_segments_error in Hs. contradiction.
Qed.

End Calls.
(** ** Comparing tokens *)

Lemma tuple_eqb_sym a b : tuple_eqb a b = tuple_eqb b a.
Proof. unfold tuple_eqb. rewrite (Z.eqb_sym (fst a)), (Z.eqb_sym (snd a)). reflexivity. Qed.

Lemma Token_eq_sym t1 t2 :
  Token_eq t1 (PyToken t2) = Token_eq t2 (PyToken t1).
Proof.
  unfold Token_eq. cbn [eq_None].
  rewrite (Z.eqb_sym (wordform t1)), (Z.eqb_sym (lemma t1)),
    (Z.eqb_sym (pos_tag t1)), (tuple_eqb_sym (text_position t1)).
  reflexivity.
Qed.

Lemma Token_eq_true t1 t2 :
  Token_eq t1 (PyToken t2) = Ok true <-> same_token_fields t1 t2.
Proof.
  unfold Token_eq, same_token_fields. cbn [eq_None]. split.
  - intros [= H]. revert H.
    rewrite !andb_true_iff, !Z.eqb_eq, tuple_eqb_spec. tauto.
  - intros H. f_equal.
    rewrite !andb_true_iff, !Z.eqb_eq, tuple_eqb_spec. tauto.
Qed.

Lemma py_eq_sym a b : py_eq a b = py_eq b a.
Proof.
  destruct a as [|t1|m|s], b as [|t2|n|s']; cbn [py_eq]; try reflexivity.
  - apply Token_eq_sym.
  - rewrite Z.eqb_sym. reflexivity.
  - f_equal. apply bool_decide_ext. split; congruence.
Qed.

(** X11.  [==] between tokens, [None], integers and strings is symmetric,
    in its answer and in whether it raises; a token equals itself; and
    equality is transitive. *)
Theorem py_eq_equivalence :
  (forall a b, py_eq a b = py_eq b a) /\
  (forall t, py_eq (PyToken t) (PyToken t) = Ok true) /\
  (forall a b c,
     py_eq a b = Ok true -> py_eq b c = Ok true -> py_eq a c = Ok true).
Proof.
  split; [exact py_eq_sym|split].
  - intros t. cbn [py_eq]. apply Token_eq_true.
    unfold same_token_fields. auto.
  - intros [|t1|m|s] [|t2|n|s'] [|t3|p|s'']; cbn [py_eq];
      try discriminate; try (intros; assumption).
    + rewrite !Token_eq_true. unfold same_token_fields.
      intros (? & ? & ? & ?) (? & ? & ? & ?). repeat split; congruence.
    + intros [= H1] [= H2]. apply Z.eqb_eq in H1, H2. subst.
      rewrite Z.eqb_refl. reflexivity.
    + intros [= H1] [= H2]. apply bool_decide_eq_true in H1, H2. subst.
      rewrite bool_decide_eq_true_2; reflexivity.
Qed.

(** ** Printing a token *)

Lemma uint_str_inj d1 d2 : uint_str d1 = uint_str d2 -> d1 = d2.
Proof.
  revert d2. induction d1 as [|d1 IH|d1 IH|d1 IH|d1 IH|d1 IH|d1 IH|d1 IH|d1 IH|d1 IH|d1 IH];
    intros [|d2|d2|d2|d2|d2|d2|d2|d2|d2|d2]; cbn [uint_str];
    intros H; try discriminate H; try reflexivity;
    injection H as H; f_equal; apply IH, H.
Qed.

Lemma uint_str_numeric d : forallb numeric (uint_str d) = true.
Proof.
  induction d; cbn [uint_str forallb]; try reflexivity; rewrite IHd;
    reflexivity.
Qed.

Lemma uint_str_no_sign d s : uint_str d <> hyphen :: s.
Proof. destruct d; cbn [uint_str]; discriminate. Qed.

Lemma int_str_numeric n : forallb numeric (int_str n) = true.
Proof.
  unfold int_str. destruct (Z.to_int n); cbn [forallb];
    rewrite uint_str_numeric; reflexivity.
Qed.

Lemma int_str_inj a b : int_str a = int_str b -> a = b.
Proof.
  unfold int_str. intros H.
  rewrite <- (DecimalZ.of_to a), <- (DecimalZ.of_to b).
  destruct (Z.to_int a) as [da|da], (Z.to_int b) as [db|db].
  - apply uint_str_inj in H. congruence.
  - exfalso. eapply uint_str_no_sign, H.
  - exfalso. symmetry in H. eapply uint_str_no_sign, H.
  - injection H as H. apply uint_str_inj in H. congruence.
Qed.

(** Two texts that agree up to and after a mark that neither holds before
    it. *)
Lemma app_mark_inj (x : codepoint) a1 r1 a2 r2 :
  forallb numeric a1 = true -> forallb numeric a2 = true ->
  numeric x = false ->
  a1 ++ x :: r1 = a2 ++ x :: r2 -> a1 = a2 /\ r1 = r2.
Proof.
  intros H1 H2 Hx. revert a2 H2.
  induction a1 as [|c a1 IH]; intros [|c' a2] H2 Heq; cbn [app] in Heq.
  - injection Heq as ->. auto.
  - injection Heq as <- _. cbn [forallb] in H2. rewrite Hx in H2. discriminate.
  - injection Heq as -> _. cbn [forallb] in H1. rewrite Hx in H1. discriminate.
  - injection Heq as -> Heq. cbn [forallb] in H1, H2.
    apply andb_true_iff in H1 as [_ H1]. apply andb_true_iff in H2 as [_ H2].
    destruct (IH H1 a2 H2 Heq) as [-> ->]. auto.
Qed.

Lemma Token_str_unfold t :
  Token_str t =
  0x27 :: int_str (wordform t) ++ 0x27 :: 0x20 :: 0x28 ::
  int_str (lemma t) ++ 0x2C :: 0x20 ::
  int_str (pos_tag t) ++ 0x29 :: 0x2C :: 0x20 :: 0x28 ::
  int_str (fst (text_position t)) ++ 0x2C :: 0x20 ::
  int_str (snd (text_position t)) ++ [0x29].
Proof.
  unfold Token_str, tuple_str.
  change (u "'") with [0x27]. change (u "' (") with [0x27; 0x20; 0x28].
  change (u ", ") with [0x2C; 0x20].
  change (u "), ") with [0x29; 0x2C; 0x20].
  change (u "(") with [0x28]. change (u ")") with [0x29].
  cbn [app]. repeat (rewrite <- app_assoc; cbn [app]). reflexivity.
Qed.

(** X12.  [str(token)] shows exactly what token equality compares: two
    tokens print alike if and only if they are equal under [==]. *)
Theorem Token_str_eq (t1 t2 : Token) :
  Token_str t1 = Token_str t2 <-> py_eq (PyToken t1) (PyToken t2) = Ok true.
Proof.
  cbn [py_eq]. rewrite Token_eq_true, !Token_str_unfold.
  unfold same_token_fields. split.
  - intros H. injection H as H.
    apply app_mark_inj in H as [Hw H];
      [|apply int_str_numeric|apply int_str_numeric|reflexivity].
    injection H as H.
    apply app_mark_inj in H as [Hl H];
      [|apply int_str_numeric|apply int_str_numeric|reflexivity].
    injection H as H.
    apply app_mark_inj in H as [Hp H];
      [|apply int_str_numeric|apply int_str_numeric|reflexivity].
    injection H as H.
    apply app_mark_inj in H as [Ha H];
      [|apply int_str_numeric|apply int_str_numeric|reflexivity].
    injection H as H.
    apply app_mark_inj in H as [Hb _];
      [|apply int_str_numeric|apply int_str_numeric|reflexivity].
    apply int_str_inj in Hw, Hl, Hp, Ha, Hb.
    repeat split; try assumption.
    destruct (text_position t1), (text_position t2). simpl in Ha, Hb.
    congruence.
  - intros (-> & -> & -> & ->). reflexivity.
Qed.
(** ** Reading, comparing and printing trigrams *)

(** X13.  [trigram[key]] answers for the keys -3 to 2, a negative key
    counting from the last slot, and raises IndexError for every other
    key. *)
Theorem Trigram_getitem_bounds (T : Trigram) (t0 t1 t2 : option Token) :
  trigram T = (t0, t1, t2) ->
  Trigram_getitem T 0 = Ok t0 /\ Trigram_getitem T 1 = Ok t1 /\
  Trigram_getitem T 2 = Ok t2 /\
  (forall key, (0 <= key < 3)%Z ->
               Trigram_getitem T (key - 3) = Trigram_getitem T key) /\
  (forall key, (key < -3 \/ 3 <= key)%Z ->
               Trigram_getitem T key = Err IndexError).
Proof.
  intros HT. unfold Trigram_getitem, tuple_getitem. rewrite HT.
  repeat split; try reflexivity.
  - intros key Hkey.
    assert (Hcases : key = 0%Z \/ key = 1%Z \/ key = 2%Z) by lia.
    destruct Hcases as [->|[->| ->]]; reflexivity.
  - intros key Hkey. unfold seq_getitem. cbn [length].
    change (Z.of_nat 3) with 3%Z.
    destruct (Z.ltb_spec key 0).
    + destruct (Z.ltb_spec (key + 3) 0); [reflexivity|lia].
    + destruct (Z.ltb_spec key 0); [lia|].
      destruct (Z.leb_spec 3 key); [reflexivity|lia].
Qed.

Lemma Trigram_getitem_witness :
  Trigram_getitem {| trigram := middle_only;
                     trigram_text_position := (3, 5)%Z |} (-2)
    = Ok (Some (sample_token 3 5)).
Proof.
  destruct (Trigram_getitem_bounds
              {| trigram := middle_only; trigram_text_position := (3, 5)%Z |}
              None (Some (sample_token 3 5)) None eq_refl)
    as (_ & H1 & _ & Hneg & _).
  rewrite <- H1. apply (Hneg 1%Z). lia.
Defined.

Lemma Trigram_init_inv s T :
  Trigram_init s = Ok T ->
  exists a b,
    first_present s = Some a /\ last_present s = Some b /\
    T = {| trigram := s;
           trigram_text_position :=
             (fst (text_position a), snd (text_position b)) |}.
Proof.
  intros H.
  destruct (first_present s) as [a|] eqn:Ha.
  - destruct (last_present s) as [b|] eqn:Hb.
    + rewrite (Trigram_init_present _ _ _ Ha Hb) in H. injection H as <-.
      eauto.
    + apply last_present_None in Hb. rewrite Hb in Ha. discriminate.
  - apply first_present_None in Ha. rewrite Ha in H. discriminate.
Qed.

Lemma py_eq_slots_total (a b : option Token) :
  exists r, py_eq (slot_val a) (slot_val b) = Ok r.
Proof. destruct a, b; cbn; eauto. Qed.

Lemma py_eq_slots_true (a b : option Token) :
  py_eq (slot_val a) (slot_val b) = Ok true <->
  match a, b with
  | Some x, Some y => same_token_fields x y
  | None, None => True
  | _, _ => False
  end.
Proof.
  destruct a as [x|], b as [y|]; cbn [slot_val py_eq].
  - apply Token_eq_true.
  - cbn. split; [discriminate|contradiction].
  - cbn. split; [discriminate|contradiction].
  - tauto.
Qed.

Lemma slot_eq_unfold S T i a b :
  Trigram_getitem S i = Ok a -> Trigram_getitem T i = Ok b ->
  slot_eq S T i = py_eq (slot_val a) (slot_val b).
Proof. unfold slot_eq. intros -> ->. reflexivity. Qed.

(** Equal slots give equal spans. *)
Lemma slots_equal_span s t a b a' b' :
  slots_equal s t ->
  first_present s = Some a -> last_present s = Some b ->
  first_present t = Some a' -> last_present t = Some b' ->
  fst (text_position a) = fst (text_position a') /\
  snd (text_position b) = snd (text_position b').
Proof.
  destruct s as [[s0 s1] s2], t as [[t0 t1] t2]. unfold slots_equal.
  rewrite !py_eq_slots_true. unfold same_token_fields.
  destruct s0, s1, s2, t0, t1, t2; cbn [first_present last_present];
    intros (H0 & H1 & H2); try contradiction;
    intros [= <-] [= <-] [= <-] [= <-];
    repeat match goal with
           | H : _ /\ _ |- _ => destruct H
           end; split; congruence.
Qed.

(** X14.  Two constructed trigrams are equal under [==] exactly when their
    slots are equal one by one (both absent, or both tokens and equal); the
    comparison of the spans that [Trigram.__eq__] adds never decides, and
    the comparison never raises. *)
Theorem Trigram_eq_slots (s t : slots) (S T : Trigram) :
  Trigram_init s = Ok S -> Trigram_init t = Ok T ->
  (exists r, Trigram_eq S (ObjTrigram T) = Ok r) /\
  (Trigram_eq S (ObjTrigram T) = Ok true <-> slots_equal s t).
Proof.
  intros HS HT.
  apply Trigram_init_inv in HS as (a & b & Ha & Hb & ->).
  apply Trigram_init_inv in HT as (a' & b' & Ha' & Hb' & ->).
  assert (Hspan : slots_equal s t ->
                  tuple_eqb (fst (text_position a), snd (text_position b))
                            (fst (text_position a'), snd (text_position b'))
                  = true).
  { intros H. destruct (slots_equal_span _ _ _ _ _ _ H Ha Hb Ha' Hb') as [-> ->].
    apply tuple_eqb_spec. reflexivity. }
  clear Ha Hb Ha' Hb'.
  destruct s as [[s0 s1] s2], t as [[t0 t1] t2].
  unfold Trigram_eq. cbn [obj_eq_None].
  rewrite (slot_eq_unfold _ _ 0 s0 t0), (slot_eq_unfold _ _ 1 s1 t1),
    (slot_eq_unfold _ _ 2 s2 t2) by reflexivity.
  cbn [trigram_text_position]. unfold slots_equal in *.
  destruct (py_eq_slots_total s0 t0) as [[|] E0];
    destruct (py_eq_slots_total s1 t1) as [[|] E1];
    destruct (py_eq_slots_total s2 t2) as [[|] E2];
    rewrite E0, ?E1, ?E2; cbn [mbind result_mbind result_bind];
    rewrite ?E1, ?E2; cbn [mbind result_mbind result_bind];
    rewrite ?E2; cbn [mbind result_mbind result_bind];
    (split; [eauto|]);
    try (split; [discriminate|intros (? & ? & ?); congruence]).
  rewrite (Hspan (conj E0 (conj E1 E2))). split; auto.
Qed.

Lemma Trigram_eq_slots_witness :
  Trigram_eq {| trigram := middle_only; trigram_text_position := (3, 5)%Z |}
    (ObjTrigram {| trigram := middle_only;
                   trigram_text_position := (3, 5)%Z |}) = Ok true.
Proof.
  apply (Trigram_eq_slots middle_only middle_only
           {| trigram := middle_only; trigram_text_position := (3, 5)%Z |}
           {| trigram := middle_only; trigram_text_position := (3, 5)%Z |});
    vm_compute; auto.
Defined.
Lemma Trigram_eq_sym S T :
  Trigram_eq S (ObjTrigram T) = Trigram_eq T (ObjTrigram S).
Proof.
  destruct S as [[[s0 s1] s2] ps], T as [[[t0 t1] t2] pt].
  unfold Trigram_eq. cbn [obj_eq_None trigram_text_position].
  rewrite (slot_eq_unfold _ _ 0 s0 t0), (slot_eq_unfold _ _ 1 s1 t1),
    (slot_eq_unfold _ _ 2 s2 t2) by reflexivity.
  rewrite (slot_eq_unfold _ _ 0 t0 s0), (slot_eq_unfold _ _ 1 t1 s1),
    (slot_eq_unfold _ _ 2 t2 s2) by reflexivity.
  rewrite (py_eq_sym (slot_val s0)), (py_eq_sym (slot_val s1)),
    (py_eq_sym (slot_val s2)), (tuple_eqb_sym ps).
  reflexivity.
Qed.

(** X15.  [Trigram.__eq__] answers [False] for [None], raises the
    type-mismatch error for a token, an integer or a string, and between two
    trigrams gives the same answer whichever stands on the left. *)
Theorem Trigram_eq_kinds (S : Trigram) :
  Trigram_eq S (ObjVal PyNone) = Ok false /\
  (forall t, Trigram_eq S (ObjVal (PyToken t)) = Err TypeMismatchError) /\
  (forall n, Trigram_eq S (ObjVal (PyInt n)) = Err TypeMismatchError) /\
  (forall s, Trigram_eq S (ObjVal (PyStr s)) = Err TypeMismatchError) /\
  (forall T, Trigram_eq S (ObjTrigram T) = Trigram_eq T (ObjTrigram S)).
Proof.
  repeat split; try reflexivity. apply Trigram_eq_sym.
Qed.

(** X16.  With tokens as the dataclass declares them, [pos_tag] an integer,
    printing a constructed trigram raises AttributeError: the helper calls
    [upper()] on the [pos_tag] of the first present slot, and a constructed
    trigram has one. *)
Theorem Trigram_str_raises (s : slots) (T : Trigram) :
  Trigram_init s = Ok T ->
  Trigram_str T = Err (AttributeError "'int' object has no attribute 'upper'").
Proof.
  intros HT. apply Trigram_init_inv in HT as (a & b & Ha & _ & ->).
  destruct s as [[[x|] [y|]] [z|]]; try discriminate Ha; reflexivity.
Qed.

Lemma Trigram_str_raises_witness :
  Trigram_str {| trigram := middle_only; trigram_text_position := (3, 5)%Z |}
    = Err (AttributeError "'int' object has no attribute 'upper'").
Proof.
  apply (Trigram_str_raises middle_only). vm_compute. reflexivity.
Defined.

(** ** The rolling window *)

